(** * connection.py: the [Socket] of the realtime client

    A shallow embedding of [src/connection.py].  The [Socket] object, the
    [Channel] objects it creates and the effects it performs (callback
    invocations, prints, frames sent, sleeps) are threaded through an
    explicit world; Python exceptions are results of their own.  The
    modules the file imports but that are not part of it ([messages],
    [channel], [websockets], [asyncio], [json]) appear as interfaces. *)

From stdpp Require Import base strings gmap list.
From Stdlib Require Import ZArith.

Local Open Scope string_scope.
Local Open Scope Z_scope.
Local Open Scope list_scope.

(** ** Values that travel on the wire *)

(** What [json.loads] produces and [json.dumps] consumes. *)
#[local] Set Warnings "-register-all".
Inductive json : Type :=
| JNull
| JBool (b : bool)
| JNum (n : Z)
| JStr (s : string)
| JArr (items : list json)
| JObj (fields : list (string * json)).

(** Modelled from the spec: [Message] of the missing module [messages];
    the spec's data model gives it the four fields topic, event, payload
    and ref, and [_listen] reads [msg.topic], [msg.event], [msg.payload]. *)
Record Message : Type := {
  topic : string;
  event : string;
  payload : json;
  ref : option string
}.

(** ** Exceptions *)

Inductive type_error : Type :=
| MissingPositional (func_name : string) (missing : list string)
| TooManyPositional (func_name : string) (takes given : nat)
| BadArgument (func_name : string)
| BadMessageFields.

Inductive exn : Type :=
| Exception (msg : string)
| NotConnectedError (func_name : string)
| TypeError (why : type_error)
| AttributeError (attr : string)
| IndexError
| JSONDecodeError
| ConnectionClosed
| ConnectionError (msg : string)
| OSError (msg : string).

(** [isinstance(e, ConnectionError)] for the exceptions above. *)
Definition is_ConnectionError (e : exn) : bool :=
  match e with ConnectionError _ => true | _ => false end.

(** Why [Message] built from [json.loads(msg)] fails: the text is not JSON, or the
    decoded value does not give [Message] exactly its fields. *)
Inductive decode_error : Type := NotJSON | NotAMessage.

Definition decode_exn (d : decode_error) : exn :=
  match d with
  | NotJSON => JSONDecodeError
  | NotAMessage => TypeError BadMessageFields
  end.

(** ** Objects *)

(** A callback is a function object of the application, known here by
    its identity. *)
Definition Callback := nat.

(** Modelled from the spec: the listener of the missing module [channel];
    [_listen] reads [cl.event] and [cl.callback]. *)
Record Listener : Type := {
  cl_event : string;
  cl_callback : Callback
}.

(** Modelled from the spec: [Channel] of the missing module [channel],
    built by [Channel(self, topic, self.params)] with no listener yet; the
    socket argument is the back-reference to the one [Socket]. *)
Record Channel : Type := {
  chan_topic : string;
  chan_params : json;
  listeners : list Listener
}.

(** Identity of a [Channel] object and of a transport handle. *)
Definition loc := nat.
Definition handle := nat.

Record Socket : Type := {
  url : string;
  channels : gmap string (list loc);
  connected : bool;
  params : json;
  hb_interval : Z;
  ws_connection : option handle;
  kept_alive : bool
}.

(** [Socket(url, params, hb_interval)] *)
Definition __init__ (url : string) (params : json) (hb_interval : Z) : Socket :=
  {| url := url;
     channels := ∅;
     connected := false;
     params := params;
     hb_interval := hb_interval;
     ws_connection := None;
     kept_alive := false |}.

Definition set_connected (b : bool) (s : Socket) : Socket :=
  {| url := url s; channels := channels s; connected := b; params := params s;
     hb_interval := hb_interval s; ws_connection := ws_connection s;
     kept_alive := kept_alive s |}.

Definition set_ws_connection (h : option handle) (s : Socket) : Socket :=
  {| url := url s; channels := channels s; connected := connected s; params := params s;
     hb_interval := hb_interval s; ws_connection := h;
     kept_alive := kept_alive s |}.

Definition set_channels (m : gmap string (list loc)) (s : Socket) : Socket :=
  {| url := url s; channels := m; connected := connected s; params := params s;
     hb_interval := hb_interval s; ws_connection := ws_connection s;
     kept_alive := kept_alive s |}.

(** What an observer sees the program do, in order. *)
Inductive effect : Type :=
| Call (cb : Callback) (arg : json)
| Print (line : string)
| Sent (h : handle) (data : string)
| Sleep (secs : Z).

(** ** Collaborators *)

(** The constants of [messages] and the decoding of a frame,
    [Message] built from [json.loads(raw)], with [json.dumps] for the way out. *)
Class Messages : Type := {
  reply : string;
  heartbeat : string;
  PHOENIX_CHANNEL : string;
  HEARTBEAT_PAYLOAD : json;
  decode : string -> decode_error + Message;
  json_dumps : Message -> string
}.

(** The [websockets] library over an environment [Env] (the network and
    the peer).  [ws_recv] and [ws_send] give [None] for
    [websockets.exceptions.ConnectionClosed]; [asyncio_sleep secs] is
    what becomes of the environment while a coroutine sleeps [secs].
    A receive or a send that fails otherwise than by a closed connection
    is not part of this interface. *)
Class Transport (Env : Type) : Type := {
  ws_connect : string -> Env -> (exn + handle) * Env;
  ws_open : handle -> Env -> bool;
  ws_recv : handle -> Env -> option string * Env;
  ws_send : handle -> string -> Env -> option unit * Env;
  asyncio_sleep : Z -> Env -> Env
}.

(** What calling a callback does: it returns, or raises. *)
Class Callbacks : Type := {
  callback_raises : Callback -> json -> option exn
}.

(** ** The world and the monad of the methods *)

Record World (Env : Type) : Type := {
  sock : Socket;
  heap : gmap loc Channel;
  env : Env;
  out : list effect
}.
Arguments sock {Env} _.
Arguments heap {Env} _.
Arguments env {Env} _.
Arguments out {Env} _.

Inductive res (W A : Type) : Type :=
| Ok (a : A) (w : W)
| Raise (e : exn) (w : W)
| OutOfFuel (w : W).
Arguments Ok {W A} _ _.
Arguments Raise {W A} _ _.
Arguments OutOfFuel {W A} _.

Definition M (Env A : Type) : Type := World Env -> res (World Env) A.

(** The world a computation leaves behind, however it ends. *)
Definition world_of {Env A} (r : res (World Env) A) : World Env :=
  match r with Ok _ w | Raise _ w | OutOfFuel w => w end.

Definition ret {Env A} (a : A) : M Env A := fun w => Ok a w.

Definition raise {Env A} (e : exn) : M Env A := fun w => Raise e w.

Definition bind {Env A B} (m : M Env A) (k : A -> M Env B) : M Env B :=
  fun w =>
    match m w with
    | Ok a w' => k a w'
    | Raise e w' => Raise e w'
    | OutOfFuel w' => OutOfFuel w'
    end.

Notation "x <- m ;; k" := (bind m (fun x => k))
  (at level 65, m at next level, right associativity).
Notation "m ;;; k" := (bind m (fun _ => k))
  (at level 65, right associativity).

Definition set_sock {Env} (s : Socket) (w : World Env) : World Env :=
  {| sock := s; heap := heap w; env := env w; out := out w |}.

Definition set_heap {Env} (h : gmap loc Channel) (w : World Env) : World Env :=
  {| sock := sock w; heap := h; env := env w; out := out w |}.

Definition set_env {Env} (e : Env) (w : World Env) : World Env :=
  {| sock := sock w; heap := heap w; env := e; out := out w |}.

Definition emit {Env} (x : effect) : M Env unit :=
  fun w => Ok tt {| sock := sock w; heap := heap w; env := env w; out := out w ++ [x] |}.

Definition add_out {Env} (xs : list effect) (w : World Env) : World Env :=
  {| sock := sock w; heap := heap w; env := env w; out := out w ++ xs |}.

Definition print {Env} (line : string) : M Env unit := emit (Print line).

(** ** Calling Python functions *)

Inductive value : Type :=
| VNone
| VSocket
| VStr (s : string)
| VChannel (l : loc).

(** A [def] whose parameters are all required positional ones, as those
    of the two decorated methods are: its name, its parameters and its
    body, which receives the arguments once they are bound.  Defaults,
    starred and keyword parameters are not covered. *)
Record pyfunc (Env : Type) : Type := {
  fn_name : string;
  fn_params : list string;
  fn_body : list value -> M Env value
}.
Arguments fn_name {Env} _.
Arguments fn_params {Env} _.
Arguments fn_body {Env} _.

(** A call of [f]: Python binds the arguments to the parameters before the
    body runs and raises [TypeError] when their numbers differ. *)
Definition py_call {Env} (f : pyfunc Env) (args : list value) : M Env value :=
  let n := length args in
  let p := length (fn_params f) in
  if decide (n = p) then fn_body f args
  else if decide (n < p)%nat
       then raise (TypeError (MissingPositional (fn_name f) (drop n (fn_params f))))
       else raise (TypeError (TooManyPositional (fn_name f) p n)).

Section Socket.
Context {Env : Type} `{!Messages} `{!Transport Env} `{!Callbacks}.

(** What [asyncio.gather] over the two coroutines does under
    [loop.run_until_complete]; the scheduler is not part of the file. *)
Variable asyncio_gather : M Env unit -> M Env unit -> M Env unit.

(** *** [ensure_connection] *)

(** The [wrapper] that [ensure_connection(func)] returns: it reads
    [args[0].connected], and when connected evaluates [func()] as a
    statement, so that the wrapper itself returns [None]. *)
Definition ensure_connection (func : pyfunc Env) (args : list value) : M Env value :=
  match args with
  | [] => raise IndexError
  | VSocket :: _ =>
      fun w =>
        if negb (connected (sock w))
        then Raise (NotConnectedError (fn_name func)) w
        else (py_call func [] ;;; ret VNone) w
  | _ :: _ => raise (AttributeError "connected")
  end.

(** *** [_listen] *)

(** Lines 59-61: the listeners of one channel, in list order. *)
Fixpoint call_listeners (ev : string) (arg : json) (ls : list Listener) : M Env unit :=
  match ls with
  | [] => ret tt
  | cl :: rest =>
      if decide (cl_event cl = ev)
      then emit (Call (cl_callback cl) arg) ;;;
           match callback_raises (cl_callback cl) arg with
           | Some e => raise e
           | None => call_listeners ev arg rest
           end
      else call_listeners ev arg rest
  end.

(** Lines 58-61: the channels found under the topic, in list order; a
    channel is reached through its identity in the heap. *)
Fixpoint call_channels (ev : string) (arg : json) (cs : list loc) : M Env unit :=
  match cs with
  | [] => ret tt
  | c :: rest =>
      (fun w =>
         match heap w !! c with
         | Some chan => call_listeners ev arg (listeners chan) w
         | None => Raise (AttributeError "listeners") w
         end) ;;;
      call_channels ev arg rest
  end.

(** One turn of the loop of [_listen], for a decoded message. *)
Inductive flow : Type := Continue | Break.

(** Lines 56-61.  [self.channels.get(msg.topic, [])] reads the mapping
    and never adds a key. *)
Definition dispatch (msg : Message) : M Env flow :=
  if decide (event msg = reply) then ret Continue
  else
    (fun w => call_channels (event msg) (payload msg)
                (default [] (channels (sock w) !! topic msg)) w) ;;;
    ret Continue.

(** [await self.ws_connection.recv()] *)
Definition recv : M Env (option string) :=
  fun w =>
    match ws_connection (sock w) with
    | None => Raise (AttributeError "recv") w
    | Some h => let '(r, e') := ws_recv h (env w) in Ok r (set_env e' w)
    end.

(** Lines 53-65, one pass through the [try]: [ConnectionClosed], from
    wherever inside it comes, is caught, printed and ends the loop; any
    other exception leaves [_listen]. *)
Definition listen_try : M Env flow :=
  fun w =>
    let body :=
      r <- recv ;;
      match r with
      | None => raise ConnectionClosed
      | Some raw =>
          match decode raw with
          | inl d => raise (decode_exn d)
          | inr msg => dispatch msg
          end
      end in
    match body w with
    | Raise ConnectionClosed w' => (print "Connection Closed" ;;; ret Break) w'
    | r => r
    end.

(** [while True], with the number of turns bounded by [fuel]. *)
Fixpoint _listen (fuel : nat) : M Env unit :=
  match fuel with
  | O => fun w => OutOfFuel w
  | S fuel' =>
      f <- listen_try ;;
      match f with
      | Continue => _listen fuel'
      | Break => ret tt
      end
  end.

(** *** Listener registration *)

(** Modelled from the spec: [register(event, callback)] of the missing
    module [channel], which appends a listener to the channel. *)
Definition register (c : loc) (ev : string) (cb : Callback) : M Env unit :=
  fun w =>
    match heap w !! c with
    | None => Raise (AttributeError "listeners") w
    | Some chan =>
        let chan' := {| chan_topic := chan_topic chan; chan_params := chan_params chan;
                        listeners := listeners chan ++
                                     [{| cl_event := ev; cl_callback := cb |}] |} in
        Ok tt (set_heap (<[c := chan']> (heap w)) w)
    end.

(** *** [connect] and [_connect] *)

Definition _connect : M Env unit :=
  fun w =>
    match ws_connect (url (sock w)) (env w) with
    | (inl e, e') => Raise e (set_env e' w)
    | (inr h, e') =>
        let w1 := set_env e' w in
        if ws_open h e'
        then Ok tt (set_sock (set_connected true (set_ws_connection (Some h) (sock w1))) w1)
        else Raise (Exception "Connection Failed") w1
    end.

(** [loop.run_until_complete] hands back what the coroutine raises. *)
Definition connect : M Env unit :=
  _connect ;;;
  fun w => Ok tt (set_sock (set_connected true (sock w)) w).

(** *** [_keep_alive] *)

(** [await self.ws_connection.send(text)] *)
Definition send (text : string) : M Env unit :=
  fun w =>
    match ws_connection (sock w) with
    | None => Raise (AttributeError "send") w
    | Some h =>
        match ws_send h text (env w) with
        | (Some _, e') => emit (Sent h text) (set_env e' w)
        | (None, e') => Raise ConnectionClosed (set_env e' w)
        end
    end.

(** [await asyncio.sleep(secs)] *)
Definition sleep (secs : Z) : M Env unit :=
  fun w => emit (Sleep secs) (set_env (asyncio_sleep secs (env w)) w).

(** The [dict] of line 93. *)
Definition data : Message :=
  {| topic := PHOENIX_CHANNEL; event := heartbeat;
     payload := HEARTBEAT_PAYLOAD; ref := None |}.

(** Lines 92-99, one pass through the [try]. *)
Definition keep_alive_try : M Env flow :=
  fun w =>
    let body :=
      send (json_dumps data) ;;;
      sleep (hb_interval (sock w)) ;;;
      ret Continue in
    match body w with
    | Raise ConnectionClosed w' =>
        (print "Connection with server closed" ;;; ret Break) w'
    | r => r
    end.

Fixpoint _keep_alive (fuel : nat) : M Env unit :=
  match fuel with
  | O => fun w => OutOfFuel w
  | S fuel' =>
      f <- keep_alive_try ;;
      match f with
      | Continue => _keep_alive fuel'
      | Break => ret tt
      end
  end.

(** *** [listen] and [set_channel], as written under the decorator *)

Definition listen_def (fuel : nat) : pyfunc Env :=
  {| fn_name := "listen";
     fn_params := ["self"];
     fn_body := fun args =>
       match args with
       | [VSocket] => asyncio_gather (_listen fuel) (_keep_alive fuel) ;;; ret VNone
       | _ => raise (TypeError (BadArgument "listen"))
       end |}.

(** Lines 108-111.  [self.channels] is a [defaultdict(list)]:
    [self.channels[topic]] gives the list under [topic], an empty one
    that it first stores when the key is missing. *)
Definition set_channel_body (topic : string) : M Env value :=
  fun w =>
    let chan := fresh (dom (heap w)) in
    let object := {| chan_topic := topic; chan_params := params (sock w);
                     listeners := [] |} in
    let under := default [] (channels (sock w) !! topic) in
    Ok (VChannel chan)
       (set_sock (set_channels (<[topic := under ++ [chan]]> (channels (sock w))) (sock w))
          (set_heap (<[chan := object]> (heap w)) w)).

Definition set_channel_def : pyfunc Env :=
  {| fn_name := "set_channel";
     fn_params := ["self"; "topic"];
     fn_body := fun args =>
       match args with
       | [VSocket; VStr topic] => set_channel_body topic
       | _ => raise (TypeError (BadArgument "set_channel"))
       end |}.

(** *** The public methods: what the class attributes are bound to *)

(** [sock.listen()] *)
Definition listen (fuel : nat) : M Env value :=
  ensure_connection (listen_def fuel) [VSocket].

(** [sock.set_channel(topic)] *)
Definition set_channel (topic : string) : M Env value :=
  ensure_connection set_channel_def [VSocket; VStr topic].

End Socket.

(** ** A stub transport and application, for running the model *)

(** The peer behind the stub: whether it accepts a connection, whether
    the handle it gives is open, the frames it will deliver before it
    closes and how many frames it takes before it closes. *)
Record Stub : Type := {
  accepts : bool;
  opened : bool;
  inbox : list string;
  budget : nat
}.

Definition stub_close (e : Stub) : Stub :=
  {| accepts := accepts e; opened := false; inbox := inbox e; budget := budget e |}.

#[export] Instance stub_transport : Transport Stub := {|
  ws_connect := fun _ e =>
    if accepts e then (inr 7%nat, e) else (inl (OSError "connection refused"), e);
  ws_open := fun _ e => opened e;
  ws_recv := fun _ e =>
    if opened e then
      match inbox e with
      | [] => (None, stub_close e)
      | raw :: rest =>
          (Some raw, {| accepts := accepts e; opened := true; inbox := rest;
                        budget := budget e |})
      end
    else (None, e);
  ws_send := fun _ _ e =>
    if opened e then
      match budget e with
      | O => (None, stub_close e)
      | S k => (Some tt, {| accepts := accepts e; opened := true; inbox := inbox e;
                           budget := k |})
      end
    else (None, e);
  asyncio_sleep := fun _ e => e
|}.

(** Frames of the stub are short names standing for JSON texts. *)
#[export] Instance stub_messages : Messages := {|
  reply := "phx_reply";
  heartbeat := "heartbeat";
  PHOENIX_CHANNEL := "phoenix";
  HEARTBEAT_PAYLOAD := JObj [("msg", JStr "ping")];
  decode := fun raw =>
    if decide (raw = "new_msg") then
      inr {| topic := "room:1"; event := "new_msg";
             payload := JObj [("body", JStr "hi")]; ref := Some "1" |}
    else if decide (raw = "typing") then
      inr {| topic := "room:1"; event := "typing"; payload := JNull; ref := None |}
    else if decide (raw = "reply") then
      inr {| topic := "room:1"; event := "phx_reply"; payload := JNull; ref := Some "1" |}
    else if decide (raw = "elsewhere") then
      inr {| topic := "room:2"; event := "new_msg"; payload := JNull; ref := None |}
    else if decide (raw = "no_ref") then inl NotAMessage
    else inl NotJSON;
  json_dumps := fun m => topic m +:+ "/" +:+ event m
|}.

(** Every callback of the stub returns, except number 13. *)
#[export] Instance stub_callbacks : Callbacks := {|
  callback_raises := fun cb _ =>
    if decide (cb = 13%nat) then Some (Exception "boom") else None
|}.

(** The stub scheduler runs the two coroutines one after the other. *)
Definition stub_gather (a b : M Stub unit) : M Stub unit := a ;;; b.

Definition stub_world (s : Socket) (e : Stub) : World Stub :=
  {| sock := s; heap := ∅; env := e; out := [] |}.

Definition fresh_socket : Socket := __init__ "ws://localhost:4000/socket" JNull 5.

Definition peer (frames : list string) (n : nat) : Stub :=
  {| accepts := true; opened := true; inbox := frames; budget := n |}.

(** ** What the statements speak of *)

Section Observations.
Context {Env : Type} `{!Messages} `{!Transport Env} `{!Callbacks}.

(** The invocations the listeners [ls] owe to an event, in list order. *)
Definition calls_for (ev : string) (arg : json) (ls : list Listener) : list effect :=
  map (fun cl => Call (cl_callback cl) arg) (filter (fun cl => cl_event cl = ev) ls).

(** The same for the channel object at [c]. *)
Definition channel_calls (h : gmap loc Channel) (ev : string) (arg : json) (c : loc)
  : list effect :=
  match h !! c with
  | Some chan => calls_for ev arg (listeners chan)
  | None => []
  end.

(** The listeners of [ls] bound to [ev] have callbacks that return. *)
Definition callbacks_return (ev : string) (arg : json) (ls : list Listener) : Prop :=
  forall cl, cl ∈ ls -> cl_event cl = ev -> callback_raises (cl_callback cl) arg = None.

(** Every channel of [cs] is an object of the heap whose callbacks for
    [ev] return. *)
Definition channels_ready (h : gmap loc Channel) (ev : string) (arg : json)
    (cs : list loc) : Prop :=
  forall c, c ∈ cs ->
    exists chan, h !! c = Some chan /\ callbacks_return ev arg (listeners chan).

(** The channels registered under a topic, [self.channels.get(topic, [])]. *)
Definition channels_under (s : Socket) (t : string) : list loc :=
  default [] (channels s !! t).

(** The transport behind [h] takes [n] frames [text], each followed by
    a sleep of [secs], and reports closed at the next send. *)
Fixpoint stays_open (h : handle) (text : string) (secs : Z) (n : nat) (e : Env) : bool :=
  match n with
  | O => match ws_send h text e with (None, _) => true | (Some _, _) => false end
  | S k =>
      match ws_send h text e with
      | (Some _, e') => stays_open h text secs k (asyncio_sleep secs e')
      | (None, _) => false
      end
  end.

(** [n] heartbeats as an observer sees them: a frame, then the sleep. *)
Definition beats (h : handle) (text : string) (secs : Z) (n : nat) : list effect :=
  concat (replicate n [Sent h text; Sleep secs]).

End Observations.

(** ** The life of a socket *)

Section Lifecycle.
Context {Env : Type} `{!Messages} `{!Transport Env} `{!Callbacks}.
Variable asyncio_gather : M Env unit -> M Env unit -> M Env unit.

(** A socket just built, facing the environment [e]. *)
Definition init_world (u : string) (p : json) (hb : Z) (e : Env) : World Env :=
  {| sock := __init__ u p hb; heap := ∅; env := e; out := [] |}.

(** What can happen to the world: a method is called and ends as it
    ends, a listener is registered, one of the coroutines runs for a
    while, or the environment moves (frames arrive, the peer closes the
    transport). *)
Inductive step : World Env -> World Env -> Prop :=
| step_connect w : step w (world_of (connect w))
| step_set_channel t w : step w (world_of (set_channel t w))
| step_listen fuel w : step w (world_of (listen asyncio_gather fuel w))
| step_register c ev cb w : step w (world_of (register c ev cb w))
| step_receive fuel w : step w (world_of (_listen fuel w))
| step_heartbeat fuel w : step w (world_of (_keep_alive fuel w))
| step_env e' w : step w (set_env e' w).

Inductive reachable : World Env -> Prop :=
| reach_init u p hb e : reachable (init_world u p hb e)
| reach_step w w' : reachable w -> step w w' -> reachable w'.

(** The socket holds a handle and the transport behind it is open. *)
Definition live_handle_held (w : World Env) : Prop :=
  exists h, ws_connection (sock w) = Some h /\ ws_open h (env w) = true.

(** The invariant with a live handle, and the one with a handle. *)
Definition connected_iff_live (w : World Env) : Prop :=
  connected (sock w) = true <-> live_handle_held w.

Definition connected_iff_handle (w : World Env) : Prop :=
  connected (sock w) = true <-> is_Some (ws_connection (sock w)).

(** The transport gives no handle, or one that is not open. *)
Definition no_open_transport (w : World Env) : Prop :=
  match ws_connect (url (sock w)) (env w) with
  | (inl _, _) => True
  | (inr h, e') => ws_open h e' = false
  end.

(** [connect()] on a disconnected socket without open transport fails
    with a [ConnectionError] and leaves the socket disconnected. *)
Definition failure_is_ConnectionError : Prop :=
  forall w,
    connected (sock w) = false -> ws_connection (sock w) = None ->
    no_open_transport w ->
    exists e w',
      connect w = Raise e w' /\ is_ConnectionError e = true /\
      connected (sock w') = false /\ ws_connection (sock w') = None.

(** [n] calls of the def under the decorator, each with its two
    arguments, and the channels they return, in order. *)
Fixpoint register_all (t : string) (n : nat) : M Env (list loc) :=
  match n with
  | O => ret []
  | S k =>
      v <- py_call set_channel_def [VSocket; VStr t] ;;
      match v with
      | VChannel c => cs <- register_all t k ;; ret (c :: cs)
      | _ => raise (AttributeError "on")
      end
  end.

(** A computation that leaves the socket's attributes alone. *)
Definition keeps_sock {A} (m : M Env A) : Prop :=
  forall w, sock (world_of (m w)) = sock w.

End Lifecycle.

(** ** Concrete worlds *)

(** A stub peer that gives a handle which is not open. *)
Definition dead_peer : Stub :=
  {| accepts := true; opened := false; inbox := []; budget := 0 |}.

(** A stub peer that gives no handle. *)
Definition absent_peer : Stub :=
  {| accepts := false; opened := false; inbox := []; budget := 0 |}.

(** A connected socket facing a peer with [frames] to deliver and [n]
    heartbeats to take. *)
Definition connected_world (frames : list string) (n : nat) : World Stub :=
  world_of (connect (stub_world fresh_socket (peer frames n))).

(** The caller takes the channel out of what registration returned. *)
Definition as_channel (v : value) : M Stub loc :=
  match v with
  | VChannel c => ret c
  | _ => raise (AttributeError "on")
  end.

(** Two channels on ["room:1"], the first listening for ["new_msg"] with
    callback 1, the second for ["typing"] with callback 2; they are
    registered by the body of [set_channel], called with its arguments. *)
Definition room_setup : M Stub unit :=
  v0 <- py_call set_channel_def [VSocket; VStr "room:1"] ;;
  c0 <- as_channel v0 ;;
  register c0 "new_msg" 1%nat ;;;
  v1 <- py_call set_channel_def [VSocket; VStr "room:1"] ;;
  c1 <- as_channel v1 ;;
  register c1 "typing" 2%nat.

Definition room_world (frames : list string) (n : nat) : World Stub :=
  world_of (room_setup (connected_world frames n)).

(** ** What the loops are observed to do *)

Section Traces.
Context {Env : Type} `{!Messages} `{!Transport Env} `{!Callbacks}.

(** The transport behind [h] delivers the frames [raws], in this order,
    and reports closed at the receive after them. *)
Fixpoint delivers (h : handle) (raws : list string) (e : Env) : bool :=
  match raws with
  | [] => match ws_recv h e with (None, _) => true | (Some _, _) => false end
  | raw :: rest =>
      match ws_recv h e with
      | (Some r, e') => bool_decide (r = raw) && delivers h rest e'
      | (None, _) => false
      end
  end.

(** The environment once the transport behind [h] has delivered exactly
    the frames [raws], in this order. *)
Fixpoint after_frames (h : handle) (raws : list string) (e : Env) : option Env :=
  match raws with
  | [] => Some e
  | raw :: rest =>
      match ws_recv h e with
      | (Some r, e') => if decide (r = raw) then after_frames h rest e' else None
      | (None, _) => None
      end
  end.

(** The invocations one decoded message leads to: none for a reply, else
    those of the channels under its topic. *)
Definition message_calls (hp : gmap loc Channel) (s : Socket) (msg : Message)
  : list effect :=
  if decide (event msg = reply) then []
  else flat_map (channel_calls hp (event msg) (payload msg)) (channels_under s (topic msg)).

(** [x] is the call, with the payload of [msg], of a listener bound to
    the event of [msg] on a channel under the topic of [msg]. *)
Definition matching_call (hp : gmap loc Channel) (s : Socket) (msg : Message)
    (x : effect) : Prop :=
  exists c chan cl,
    c ∈ channels_under s (topic msg) /\ hp !! c = Some chan /\
    cl ∈ listeners chan /\ cl_event cl = event msg /\
    x = Call (cl_callback cl) (payload msg).

(** What has been invoked when the listener [cl], reached after the
    channels [cpre] and after the listeners [pre] of its own channel, is
    called. *)
Definition calls_until (hp : gmap loc Channel) (ev : string) (arg : json)
    (cpre : list loc) (pre : list Listener) (cl : Listener) : list effect :=
  flat_map (channel_calls hp ev arg) cpre ++ calls_for ev arg pre
  ++ [Call (cl_callback cl) arg].

Definition is_call (x : effect) : bool :=
  match x with Call _ _ => true | _ => false end.

(** From a world whose socket satisfies [pre], the computation [m] only
    moves the environment and adds effects that satisfy [P]: socket and
    channel objects are what they were, however [m] ends. *)
Definition only_emits {A} (pre : Socket -> Prop) (P : effect -> Prop) (m : M Env A) : Prop :=
  forall w, pre (sock w) ->
    exists xs e', world_of (m w) = add_out xs (set_env e' w) /\ Forall P xs.

End Traces.

(** ** More concrete worlds *)

(** The room of [room_world] with one more listener on its first
    channel: callback 13 for ["typing"]. *)
Definition crowded_room (frames : list string) : World Stub :=
  world_of (register (Env:=Stub) 0%nat "typing" 13%nat (room_world frames 0)).

(** An application whose callback 14 raises [ConnectionClosed]. *)
Definition closing_callbacks : Callbacks := {|
  callback_raises := fun cb _ =>
    if decide (cb = 14%nat) then Some ConnectionClosed else None
|}.

(** The room with callback 14 listening for ["typing"] on its first
    channel. *)
Definition closing_room (frames : list string) : World Stub :=
  world_of (register (Env:=Stub) 0%nat "typing" 14%nat (room_world frames 0)).

(** The three frames the stub decodes for ["room:1"], decoded. *)
Definition typing_msg : Message :=
  {| topic := "room:1"; event := "typing"; payload := JNull; ref := None |}.

Definition reply_msg : Message :=
  {| topic := "room:1"; event := "phx_reply"; payload := JNull; ref := Some "1" |}.

Definition new_msg_msg : Message :=
  {| topic := "room:1"; event := "new_msg";
     payload := JObj [("body", JStr "hi")]; ref := Some "1" |}.

(** ** The guard and the state of the transport *)

Section GuardedStates.
Context {Env : Type} `{!Transport Env}.

(** [set_channel(topic)] on any socket that holds no live handle fails
    with [NotConnectedError] and leaves the mapping as it was. *)
Definition rejects_without_live_handle : Prop :=
  forall (w : World Env) t,
    ~ live_handle_held w ->
    exists w', set_channel t w = Raise (NotConnectedError "set_channel") w' /\
               channels (sock w') = channels (sock w).

(** The environment once the transport behind [h] has taken [n] frames
    [text], each followed by a sleep of [secs]. *)
Fixpoint after_sends (h : handle) (text : string) (secs : Z) (n : nat) (e : Env)
  : option Env :=
  match n with
  | O => Some e
  | S k =>
      match ws_send h text e with
      | (Some _, e') => after_sends h text secs k (asyncio_sleep secs e')
      | (None, _) => None
      end
  end.

End GuardedStates.

(** ** Basic facts about worlds and the monad *)

Section WorldFacts.
Context {Env : Type}.
Implicit Types (w : World Env) (xs ys : list effect).

Lemma add_out_nil w : add_out [] w = w.
Proof. destruct w; unfold add_out; simpl. by rewrite app_nil_r. Qed.

Lemma add_out_app xs ys w : add_out ys (add_out xs w) = add_out (xs ++ ys) w.
Proof. unfold add_out; simpl. by rewrite app_assoc. Qed.

Lemma emit_eq (x : effect) w : emit x w = Ok tt (add_out [x] w).
Proof. reflexivity. Qed.

Lemma set_env_same w : set_env (env w) w = w.
Proof. by destruct w. Qed.

Lemma bind_ok {A B} (m : M Env A) (k : A -> M Env B) w a w' :
  m w = Ok a w' -> bind m k w = k a w'.
Proof. unfold bind. by intros ->. Qed.

Lemma bind_raise {A B} (m : M Env A) (k : A -> M Env B) w e w' :
  m w = Raise e w' -> bind m k w = Raise e w'.
Proof. unfold bind. by intros ->. Qed.

End WorldFacts.

(** ** Dispatch *)

Section Dispatch.
Context {Env : Type} `{!Messages} `{!Transport Env} `{!Callbacks}.
Implicit Types (w : World Env) (ls : list Listener) (cs : list loc).

Lemma call_listeners_ok ev arg ls w :
  callbacks_return ev arg ls ->
  call_listeners ev arg ls w = Ok tt (add_out (calls_for ev arg ls) w).
Proof.
  revert w. induction ls as [|cl ls IH]; intros w Hret.
  - simpl. unfold ret. by rewrite add_out_nil.
  - assert (Hrest : callbacks_return ev arg ls).
    { intros cl' Hin. apply Hret. by right. }
    unfold calls_for. rewrite filter_cons. simpl.
    destruct (decide (cl_event cl = ev)) as [Hev|Hev].
    + unfold bind. rewrite emit_eq.
      rewrite (Hret cl (list_elem_of_here _ _) Hev).
      rewrite IH by done. rewrite add_out_app. reflexivity.
    + by apply IH.
Qed.

Lemma call_channels_ok ev arg cs w :
  channels_ready (heap w) ev arg cs ->
  call_channels ev arg cs w
  = Ok tt (add_out (flat_map (channel_calls (heap w) ev arg) cs) w).
Proof.
  revert w. induction cs as [|c cs IH]; intros w Hready.
  - simpl. unfold ret. by rewrite add_out_nil.
  - destruct (Hready c (list_elem_of_here _ _)) as (chan & Hc & Hret).
    simpl. unfold bind at 1. rewrite Hc.
    rewrite call_listeners_ok by done.
    rewrite IH.
    + simpl. rewrite add_out_app. unfold channel_calls at 2. by rewrite Hc.
    + intros c' Hin. apply Hready. by right.
Qed.

(** A message that is not a reply reaches, with its payload, every
    listener bound to its event on every channel under its topic:
    channels in list order, listeners in list order within a channel. *)
Lemma dispatch_serves msg w :
  event msg <> reply ->
  channels_ready (heap w) (event msg) (payload msg) (channels_under (sock w) (topic msg)) ->
  dispatch msg w
  = Ok Continue
      (add_out (flat_map (channel_calls (heap w) (event msg) (payload msg))
                  (channels_under (sock w) (topic msg))) w).
Proof.
  intros Hne Hready. unfold dispatch.
  destruct (decide (event msg = reply)) as [|_]; [done|].
  unfold bind. fold (channels_under (sock w) (topic msg)).
  by rewrite call_channels_ok.
Qed.

(** C5: a message whose event is the reply sentinel is dropped: the turn
    of the loop that receives it invokes no callback, prints nothing,
    raises nothing and leaves socket and channels as they were, whatever
    is registered. *)
Theorem C5_reply_is_discarded w h raw e' msg :
  ws_connection (sock w) = Some h ->
  ws_recv h (env w) = (Some raw, e') ->
  decode raw = inr msg ->
  event msg = reply ->
  dispatch msg w = Ok Continue w /\
  listen_try w = Ok Continue (set_env e' w).
Proof.
  intros Hh Hrecv Hdec Hev. split.
  - unfold dispatch. by rewrite decide_True.
  - unfold listen_try, bind, recv. rewrite Hh, Hrecv, Hdec.
    unfold dispatch. by rewrite decide_True.
Qed.

(** C10: a message whose topic has no channel does nothing: no error,
    no callback, and the world, mapping included, is the one before; in
    particular a missing key stays missing. *)
Theorem C10_unknown_topic_is_noop msg w :
  channels_under (sock w) (topic msg) = [] ->
  dispatch msg w = Ok Continue w /\
  (channels (sock w) !! topic msg = None ->
   channels (sock (world_of (dispatch msg w))) !! topic msg = None).
Proof.
  intros Hnone.
  assert (Hd : dispatch msg w = Ok Continue w).
  { unfold dispatch. destruct (decide (event msg = reply)); [done|].
    unfold bind. fold (channels_under (sock w) (topic msg)). by rewrite Hnone. }
  split; [done|]. by rewrite Hd.
Qed.

End Dispatch.

(** ** The receive loop and undecodable frames *)

Section Receive.
Context {Env : Type} `{!Messages} `{!Transport Env} `{!Callbacks}.
Implicit Types (w : World Env).

Lemma decode_exn_not_closed d : decode_exn d <> ConnectionClosed.
Proof. by destruct d. Qed.

Lemma listen_try_undecodable w h raw e' d :
  ws_connection (sock w) = Some h ->
  ws_recv h (env w) = (Some raw, e') ->
  decode raw = inl d ->
  listen_try w = Raise (decode_exn d) (set_env e' w).
Proof.
  intros Hh Hrecv Hdec. unfold listen_try, bind, recv.
  rewrite Hh, Hrecv, Hdec. unfold raise. by destruct d.
Qed.

(** C9: a frame that does not decode ends [_listen] there and then: the
    decoding error, which is not [ConnectionClosed], is what [_listen]
    raises, however many turns were left, nothing is printed or invoked,
    and the transport is left right after that frame, so that no later
    frame is received. *)
Theorem C9_undecodable_frame_aborts w h raw e' d fuel :
  ws_connection (sock w) = Some h ->
  ws_recv h (env w) = (Some raw, e') ->
  decode raw = inl d ->
  _listen (S fuel) w = Raise (decode_exn d) (set_env e' w) /\
  decode_exn d <> ConnectionClosed.
Proof.
  intros Hh Hrecv Hdec. split; [|apply decode_exn_not_closed].
  simpl. apply bind_raise. by eapply listen_try_undecodable.
Qed.

End Receive.

(** ** The guard *)

Section Guard.
Context {Env : Type} `{!Messages} `{!Transport Env} `{!Callbacks}.
Variable asyncio_gather : M Env unit -> M Env unit -> M Env unit.
Implicit Types (w : World Env).

Lemma wrapper_connected func rest w :
  connected (sock w) = true ->
  ensure_connection func (VSocket :: rest) w = (py_call func [] ;;; ret VNone) w.
Proof. intros Hc. unfold ensure_connection. by rewrite Hc. Qed.

Lemma wrapper_not_connected func rest w :
  connected (sock w) = false ->
  ensure_connection func (VSocket :: rest) w = Raise (NotConnectedError (fn_name func)) w.
Proof. intros Hc. unfold ensure_connection. by rewrite Hc. Qed.

(** C3: on a connected socket the wrapper calls the wrapped function
    with no argument and drops what it returns.  [set_channel(topic)]
    and [listen()] therefore raise [TypeError] for the missing
    positional arguments, before any of their body runs, and leave the
    world as it was; and had the wrapped function accepted the call, the
    caller would have received [None], not its result. *)
Theorem C3_guarded_call_raises_TypeError w :
  connected (sock w) = true ->
  (forall t, set_channel t w
             = Raise (TypeError (MissingPositional "set_channel" ["self"; "topic"])) w) /\
  (forall fuel, listen asyncio_gather fuel w
                = Raise (TypeError (MissingPositional "listen" ["self"])) w) /\
  (forall func rest v w',
      py_call func [] w = Ok v w' ->
      ensure_connection func (VSocket :: rest) w = Ok VNone w').
Proof.
  intros Hc. repeat split.
  - intros t. unfold set_channel. by rewrite wrapper_connected.
  - intros fuel. unfold listen. by rewrite wrapper_connected.
  - intros func rest v w' Hcall. rewrite wrapper_connected by done.
    unfold bind. by rewrite Hcall.
Qed.

(** C4, as the code has it: on a socket whose [connected] flag is false
    [set_channel(topic)] raises [NotConnectedError] and the world is the
    one before: the mapping is unchanged and no channel object exists
    that did not before. *)
Theorem C4_not_connected_raises w t :
  connected (sock w) = false ->
  set_channel t w = Raise (NotConnectedError "set_channel") w.
Proof. intros Hc. unfold set_channel. by rewrite wrapper_not_connected. Qed.

(** What the body under the decorator does when it is given its
    arguments: a channel object that did not exist is created for the
    topic, with the socket's params and no listener, it is put last in
    the topic's list, other topics keep theirs, and it is returned. *)
Lemma set_channel_body_spec t w :
  exists c,
    set_channel_body t w
    = Ok (VChannel c)
        (set_sock (set_channels (<[t := channels_under (sock w) t ++ [c]]> (channels (sock w)))
                     (sock w))
           (set_heap (<[c := {| chan_topic := t; chan_params := params (sock w);
                                listeners := [] |}]> (heap w)) w)) /\
    heap w !! c = None.
Proof.
  exists (fresh (dom (heap w))). split; [reflexivity|].
  apply not_elem_of_dom. apply is_fresh.
Qed.

Lemma py_call_set_channel_def t w :
  py_call set_channel_def [VSocket; VStr t] w = set_channel_body t w.
Proof. reflexivity. Qed.

End Guard.

(** ** The heartbeat *)

Section Heartbeat.
Context {Env : Type} `{!Messages} `{!Transport Env} `{!Callbacks}.
Implicit Types (w : World Env).

Lemma set_env_add_out xs (e : Env) w : set_env e (add_out xs w) = add_out xs (set_env e w).
Proof. reflexivity. Qed.

Lemma set_env_set_env (e1 e2 : Env) w : set_env e2 (set_env e1 w) = set_env e2 w.
Proof. reflexivity. Qed.

Lemma keep_alive_try_sent w h e' :
  ws_connection (sock w) = Some h ->
  ws_send h (json_dumps data) (env w) = (Some tt, e') ->
  keep_alive_try w
  = Ok Continue
      (add_out [Sent h (json_dumps data); Sleep (hb_interval (sock w))]
         (set_env (asyncio_sleep (hb_interval (sock w)) e') w)).
Proof.
  intros Hh Hsend. unfold keep_alive_try, bind, send, sleep. rewrite Hh, Hsend.
  rewrite !emit_eq. unfold ret. f_equal.
  unfold add_out, set_env; simpl. f_equal. by rewrite <- app_assoc.
Qed.

Lemma keep_alive_try_closed w h e' :
  ws_connection (sock w) = Some h ->
  ws_send h (json_dumps data) (env w) = (None, e') ->
  keep_alive_try w
  = Ok Break (add_out [Print "Connection with server closed"] (set_env e' w)).
Proof.
  intros Hh Hsend. unfold keep_alive_try, bind, send. rewrite Hh, Hsend.
  reflexivity.
Qed.

(** C6: while the transport takes the frames, [_keep_alive] sends the
    heartbeat frame and sleeps [hb_interval] before the next one; the
    frame is always the dump of the dict with the control topic, the
    heartbeat event, the heartbeat payload and no ref.  At the first
    send the transport refuses as closed, [_keep_alive] prints its line
    and returns: with [n] frames taken an observer sees exactly [n]
    times frame-then-sleep and then the line, and no frame after it. *)
Theorem C6_heartbeat_until_closed n : forall w h k,
  ws_connection (sock w) = Some h ->
  stays_open h (json_dumps data) (hb_interval (sock w)) n (env w) = true ->
  data = {| topic := PHOENIX_CHANNEL; event := heartbeat;
            payload := HEARTBEAT_PAYLOAD; ref := None |} /\
  exists e',
    _keep_alive (S n + k) w
    = Ok tt (add_out (beats h (json_dumps data) (hb_interval (sock w)) n
                      ++ [Print "Connection with server closed"])
               (set_env e' w)).
Proof.
  induction n as [|n IH]; intros w h k Hh Hopen; (split; [reflexivity|]).
  - simpl in Hopen.
    destruct (ws_send h (json_dumps data) (env w)) as [[[]|] e'] eqn:Hsend; [done|].
    exists e'. simpl. unfold bind.
    by rewrite (keep_alive_try_closed w h e').
  - simpl in Hopen.
    destruct (ws_send h (json_dumps data) (env w)) as [[[]|] e1] eqn:Hsend; [|done].
    set (secs := hb_interval (sock w)) in *.
    set (w1 := add_out [Sent h (json_dumps data); Sleep secs]
                 (set_env (asyncio_sleep secs e1) w)).
    destruct (IH w1 h k Hh Hopen) as [_ [e' Hrun]].
    exists e'.
    change (_keep_alive (S (S n) + k) w)
      with (bind keep_alive_try
              (fun f => match f with
                        | Continue => _keep_alive (S n + k)
                        | Break => ret tt
                        end) w).
    unfold bind. rewrite (keep_alive_try_sent w h e1) by done.
    fold secs. fold w1. rewrite Hrun.
    subst w1. simpl sock. fold secs.
    rewrite set_env_add_out, set_env_set_env, add_out_app.
    reflexivity.
Qed.

End Heartbeat.

(** ** Connecting *)

Section Connect.
Context {Env : Type} `{!Transport Env}.
Implicit Types (w : World Env).

(** C7, as the code has it: when the transport gives an open handle,
    [connect()] returns with the handle recorded and [connected] true;
    when it gives a handle that is not open, [connect()] raises
    [Exception("Connection Failed")]; when it gives none, [connect()]
    raises what the transport raised; on both failures the socket is
    what it was, so a disconnected socket stays disconnected with no
    handle. *)
Theorem C7_connect_outcomes w :
  (forall h e',
      ws_connect (url (sock w)) (env w) = (inr h, e') -> ws_open h e' = true ->
      connect w
      = Ok tt (set_sock (set_connected true (set_ws_connection (Some h) (sock w)))
                 (set_env e' w))) /\
  (forall h e',
      ws_connect (url (sock w)) (env w) = (inr h, e') -> ws_open h e' = false ->
      connect w = Raise (Exception "Connection Failed") (set_env e' w)) /\
  (forall e e',
      ws_connect (url (sock w)) (env w) = (inl e, e') ->
      connect w = Raise e (set_env e' w)).
Proof.
  repeat split.
  - intros h e' Hc Ho. unfold connect, bind, _connect. by rewrite Hc, Ho.
  - intros h e' Hc Ho. unfold connect, bind, _connect. by rewrite Hc, Ho.
  - intros e e' Hc. unfold connect, bind, _connect. by rewrite Hc.
Qed.

End Connect.

(** ** What the coroutines leave alone *)

Section Frame.
Context {Env : Type} `{!Messages} `{!Transport Env} `{!Callbacks}.
Implicit Types (w : World Env).

Lemma keeps_sock_ret {A} (a : A) : keeps_sock (Env:=Env) (ret a).
Proof. by intros w. Qed.

Lemma keeps_sock_raise {A} e : keeps_sock (Env:=Env) (A:=A) (raise e).
Proof. by intros w. Qed.

Lemma keeps_sock_emit x : keeps_sock (Env:=Env) (emit x).
Proof. by intros w. Qed.

Lemma keeps_sock_bind {A B} (m : M Env A) (k : A -> M Env B) :
  keeps_sock m -> (forall a, keeps_sock (k a)) -> keeps_sock (bind m k).
Proof.
  intros Hm Hk w. unfold bind. specialize (Hm w).
  destruct (m w) as [a w'|e w'|w']; simpl in *; [|done..].
  by rewrite Hk.
Qed.

(** A [try] that catches [ConnectionClosed], prints and breaks. *)
Lemma keeps_sock_catch (body : M Env flow) line w :
  keeps_sock body ->
  sock (world_of (match body w with
                  | Raise ConnectionClosed w' => (print line ;;; ret Break) w'
                  | r => r
                  end)) = sock w.
Proof.
  intros Hb. specialize (Hb w).
  destruct (body w) as [a w'|e w'|w']; simpl in *; [done| |done].
  by destruct e.
Qed.

Create HintDb frame.
Hint Resolve keeps_sock_ret keeps_sock_raise keeps_sock_emit : frame.

Lemma keeps_sock_call_listeners ev arg ls : keeps_sock (Env:=Env) (call_listeners ev arg ls).
Proof.
  induction ls as [|cl ls IH]; simpl; [auto with frame|].
  destruct (decide (cl_event cl = ev)); [|done].
  apply keeps_sock_bind; [auto with frame|]. intros _.
  destruct (callback_raises (cl_callback cl) arg); auto with frame.
Qed.

Lemma keeps_sock_call_channels ev arg cs : keeps_sock (Env:=Env) (call_channels ev arg cs).
Proof.
  induction cs as [|c cs IH]; simpl; [auto with frame|].
  apply keeps_sock_bind; [|done].
  intros w. destruct (heap w !! c); [|done].
  apply keeps_sock_call_listeners.
Qed.

Lemma keeps_sock_dispatch msg : keeps_sock (Env:=Env) (dispatch msg).
Proof.
  unfold dispatch. destruct (decide (event msg = reply)); [auto with frame|].
  apply keeps_sock_bind; [|auto with frame].
  intros w. apply keeps_sock_call_channels.
Qed.

Lemma keeps_sock_recv : keeps_sock (Env:=Env) recv.
Proof.
  intros w. unfold recv. destruct (ws_connection (sock w)); [|done].
  by destruct (ws_recv _ _).
Qed.

Lemma keeps_sock_listen_try : keeps_sock (Env:=Env) listen_try.
Proof.
  intros w. unfold listen_try. apply keeps_sock_catch.
  apply keeps_sock_bind; [apply keeps_sock_recv|].
  intros [raw|]; [|auto with frame].
  destruct (decode raw); [auto with frame|apply keeps_sock_dispatch].
Qed.

Lemma keeps_sock__listen fuel : keeps_sock (Env:=Env) (_listen fuel).
Proof.
  induction fuel as [|fuel IH]; simpl; [by intros w|].
  apply keeps_sock_bind; [apply keeps_sock_listen_try|].
  intros []; auto with frame.
Qed.

Lemma keeps_sock_send text : keeps_sock (Env:=Env) (send text).
Proof.
  intros w. unfold send. destruct (ws_connection (sock w)); [|done].
  by destruct (ws_send _ _ _) as [[[]|] e'].
Qed.

Lemma keeps_sock_sleep secs : keeps_sock (Env:=Env) (sleep secs).
Proof. by intros w. Qed.

Lemma keeps_sock_keep_alive_try : keeps_sock (Env:=Env) keep_alive_try.
Proof.
  intros w. unfold keep_alive_try. apply keeps_sock_catch.
  apply keeps_sock_bind; [apply keeps_sock_send|]. intros _.
  apply keeps_sock_bind; [apply keeps_sock_sleep|]. auto with frame.
Qed.

Lemma keeps_sock__keep_alive fuel : keeps_sock (Env:=Env) (_keep_alive fuel).
Proof.
  induction fuel as [|fuel IH]; simpl; [by intros w|].
  apply keeps_sock_bind; [apply keeps_sock_keep_alive_try|].
  intros []; auto with frame.
Qed.

Lemma keeps_sock_register c ev cb : keeps_sock (Env:=Env) (register c ev cb).
Proof. intros w. unfold register. by destruct (heap w !! c). Qed.

End Frame.

(** ** The connected flag over the life of a socket *)

Section Invariant.
Context {Env : Type} `{!Messages} `{!Transport Env} `{!Callbacks}.
Variable asyncio_gather : M Env unit -> M Env unit -> M Env unit.
Implicit Types (w : World Env).

(** Whatever the state of the socket, a call of a guarded method ends
    in an exception raised before the method's body and changes
    nothing. *)
Lemma set_channel_changes_nothing t w : world_of (set_channel t w) = w.
Proof.
  unfold set_channel, ensure_connection. by destruct (connected (sock w)).
Qed.

Lemma listen_changes_nothing fuel w : world_of (listen asyncio_gather fuel w) = w.
Proof.
  unfold listen, ensure_connection. by destruct (connected (sock w)).
Qed.

Lemma connect_keeps_invariant w :
  connected_iff_handle w -> connected_iff_handle (world_of (connect w)).
Proof.
  intros Hinv. unfold connect, bind, _connect.
  destruct (ws_connect (url (sock w)) (env w)) as [[e|h] e']; [exact Hinv|].
  destruct (ws_open h e'); [|exact Hinv].
  unfold connected_iff_handle. simpl. split; [by eexists|done].
Qed.

Lemma step_keeps_invariant w w' :
  step asyncio_gather w w' -> connected_iff_handle w -> connected_iff_handle w'.
Proof.
  unfold connected_iff_handle at 2.
  intros Hstep Hinv. destruct Hstep.
  - by apply connect_keeps_invariant.
  - by rewrite set_channel_changes_nothing.
  - by rewrite listen_changes_nothing.
  - unfold connected_iff_handle. by rewrite keeps_sock_register.
  - unfold connected_iff_handle. by rewrite keeps_sock__listen.
  - unfold connected_iff_handle. by rewrite keeps_sock__keep_alive.
  - exact Hinv.
Qed.

Lemma reachable_connected_iff_handle w :
  reachable asyncio_gather w -> connected_iff_handle w.
Proof.
  induction 1 as [u p hb e|w w' _ IH Hstep].
  - unfold connected_iff_handle. simpl. split; [done|]. by intros [? ?].
  - by eapply step_keeps_invariant.
Qed.

Lemma step_keeps_connected w w' :
  step asyncio_gather w w' -> connected (sock w) = true -> connected (sock w') = true.
Proof.
  intros Hstep Hc. destruct Hstep.
  - unfold connect, bind, _connect.
    destruct (ws_connect (url (sock w)) (env w)) as [[e|h] e']; [done|].
    by destruct (ws_open h e').
  - by rewrite set_channel_changes_nothing.
  - by rewrite listen_changes_nothing.
  - by rewrite keeps_sock_register.
  - by rewrite keeps_sock__listen.
  - by rewrite keeps_sock__keep_alive.
  - done.
Qed.

Lemma steps_reachable w w' :
  reachable asyncio_gather w -> rtc (step asyncio_gather) w w' ->
  reachable asyncio_gather w'.
Proof.
  intros Hw Hsteps. induction Hsteps as [w|w w1 w' Hstep _ IH]; [done|].
  apply IH. by eapply reach_step.
Qed.

Lemma steps_keep_connected w w' :
  rtc (step asyncio_gather) w w' -> connected (sock w) = true ->
  connected (sock w') = true.
Proof.
  intros Hsteps. induction Hsteps as [w|w w1 w' Hstep _ IH]; [done|].
  intros Hc. apply IH. by eapply step_keeps_connected.
Qed.

(** C8, as the code has it: in every state a socket can reach,
    [connected] is true exactly when a handle is recorded in
    [ws_connection], whether or not the transport behind it is open.
    Neither is ever reset: from a reachable state where [connected] is
    true, every state reached later has [connected] true and a handle
    recorded.  And when the transport closes, as when [_listen] or
    [_keep_alive] run and meet the closure, all attributes of the
    socket, [connected] and [ws_connection] among them, are exactly
    what they were. *)
Theorem C8_connected_iff_handle_recorded :
  (forall w, reachable asyncio_gather w -> connected_iff_handle w) /\
  (forall w w',
     reachable asyncio_gather w -> rtc (step asyncio_gather) w w' ->
     connected (sock w) = true ->
     connected (sock w') = true /\ is_Some (ws_connection (sock w'))) /\
  (forall w e' fuel,
     sock (set_env e' w) = sock w /\
     sock (world_of (_listen fuel w)) = sock w /\
     sock (world_of (_keep_alive fuel w)) = sock w).
Proof.
  split; [exact reachable_connected_iff_handle|]. split.
  - intros w w' Hw Hsteps Hc.
    assert (Hc' : connected (sock w') = true) by by eapply steps_keep_connected.
    split; [done|].
    by apply (reachable_connected_iff_handle w' (steps_reachable w w' Hw Hsteps)).
  - intros w e' fuel. split; [done|]. split.
    + apply keeps_sock__listen.
    + apply keeps_sock__keep_alive.
Qed.

End Invariant.

(** ** Registration by the body of [set_channel] *)

Section Registration.
Context {Env : Type} `{!Messages} `{!Transport Env} `{!Callbacks}.
Implicit Types (w : World Env).

(** Given its arguments [n] times, the def under the decorator creates
    [n] channel objects, all new and pairwise distinct, each for the
    topic and without listener, and the topic's list grows by exactly
    them, in the order of the calls; objects that existed are kept. *)
Lemma register_all_spec t n : forall w,
  exists cs w',
    register_all t n w = Ok cs w' /\
    length cs = n /\ NoDup cs /\
    (forall c, c ∈ cs -> heap w !! c = None) /\
    channels_under (sock w') t = channels_under (sock w) t ++ cs /\
    (forall c, c ∈ cs ->
       heap w' !! c = Some {| chan_topic := t; chan_params := params (sock w);
                             listeners := [] |}) /\
    (forall c, is_Some (heap w !! c) -> heap w' !! c = heap w !! c) /\
    params (sock w') = params (sock w).
Proof.
  induction n as [|n IH]; intros w.
  - exists [], w. simpl. rewrite app_nil_r.
    repeat split; try done; [constructor|..]; intros c Hc; by apply elem_of_nil in Hc.
  - destruct (set_channel_body_spec t w) as (c & Hbody & Hfresh).
    set (obj := {| chan_topic := t; chan_params := params (sock w); listeners := [] |}) in *.
    set (w1 := set_sock (set_channels (<[t := channels_under (sock w) t ++ [c]]>
                                         (channels (sock w))) (sock w))
                 (set_heap (<[c := obj]> (heap w)) w)) in *.
    destruct (IH w1) as (cs & w' & Hrun & Hlen & Hnd & Hnew & Hunder & Hobj & Hkeep & Hpar).
    assert (Hc1 : heap w1 !! c = Some obj) by (subst w1; simpl; apply lookup_insert_eq).
    assert (Hnotin : c ∉ cs).
    { intros Hin. specialize (Hnew c Hin). congruence. }
    exists (c :: cs), w'. split.
    { simpl. unfold bind. rewrite py_call_set_channel_def, Hbody. fold w1.
      by rewrite Hrun. }
    split; [simpl; by rewrite Hlen|].
    split; [by constructor|].
    split.
    { intros x Hx. apply elem_of_cons in Hx as [->|Hx]; [done|].
      specialize (Hnew x Hx). subst w1; simpl in Hnew.
      rewrite lookup_insert_ne in Hnew; [done|]. intros ->. by apply Hnotin. }
    split.
    { rewrite Hunder. subst w1; simpl. unfold channels_under at 1; simpl.
      rewrite lookup_insert_eq. simpl. by rewrite <- app_assoc. }
    split.
    { intros x Hx. apply elem_of_cons in Hx as [->|Hx].
      - rewrite Hkeep; [done|]. by rewrite Hc1.
      - by apply Hobj. }
    split; [|exact Hpar].
    intros x Hx. assert (x <> c) by (intros ->; rewrite Hfresh in Hx; by destruct Hx).
    assert (Hx1 : heap w1 !! x = heap w !! x).
    { subst w1; simpl. by rewrite lookup_insert_ne. }
    rewrite Hkeep; [done|]. by rewrite Hx1.
Qed.

End Registration.

(** ** The model at work on the stub *)

(** The scenario of the spec: one frame ["new_msg"] for ["room:1"], and
    the listener for it is called once, with the payload. *)
Example scenario_new_msg :
  out (world_of (_listen 5 (room_world ["new_msg"] 0)))
  = [Call 1%nat (JObj [("body", JStr "hi")]); Print "Connection Closed"].
Proof. vm_compute. reflexivity. Qed.

(** Two channels on the topic, a ["typing"] frame: only the second
    channel's listener is called. *)
Example scenario_typing :
  out (world_of (_listen 5 (room_world ["typing"] 0)))
  = [Call 2%nat JNull; Print "Connection Closed"].
Proof. vm_compute. reflexivity. Qed.

(** A callback that raises ends the loop with its exception. *)
Example scenario_callback_raises :
  exists w',
    (c <- as_channel (VChannel 0%nat) ;; register c "typing" 13%nat ;;; _listen 5)
      (room_world ["typing"; "new_msg"] 0)
    = Raise (Exception "boom") w' /\
    out w' = [Call 13%nat JNull] /\ inbox (env w') = ["new_msg"].
Proof. eexists. vm_compute. repeat split; reflexivity. Qed.

(** C2, on a connected socket: [set_channel("room:1")] raises
    [TypeError], since the wrapper calls the def without the socket and
    the topic; no channel is created, none is put under the topic and
    none is returned. *)
Theorem C2_connected_set_channel_raises :
  let w := connected_world [] 0 in
  connected (sock w) = true /\
  set_channel "room:1" w
  = Raise (TypeError (MissingPositional "set_channel" ["self"; "topic"])) w /\
  channels_under (sock (world_of (set_channel "room:1" w))) "room:1" = [] /\
  heap (world_of (set_channel "room:1" w)) = ∅.
Proof. vm_compute. repeat split; reflexivity. Qed.

(** C1, on a connected socket: two calls of [set_channel("room:1")] both
    raise [TypeError], no channel is to be found under the topic after
    them, and a ["new_msg"] frame for the topic is received without any
    callback being invoked. *)
Theorem C1_registered_channels_not_served :
  let w0 := connected_world ["new_msg"] 0 in
  let w1 := world_of (set_channel "room:1" w0) in
  let w2 := world_of (set_channel "room:1" w1) in
  set_channel "room:1" w0
  = Raise (TypeError (MissingPositional "set_channel" ["self"; "topic"])) w0 /\
  set_channel "room:1" w1
  = Raise (TypeError (MissingPositional "set_channel" ["self"; "topic"])) w1 /\
  channels_under (sock w2) "room:1" = [] /\
  listen_try w2 = Ok Continue (set_env (peer [] 0) w2) /\
  out (world_of (listen_try w2)) = [].
Proof. vm_compute. repeat split; reflexivity. Qed.

(** C7 as stated fails: with a handle that is not open [connect()]
    raises the plain [Exception("Connection Failed")], which is no
    [ConnectionError]. *)
Lemma C7_failure_is_plain_Exception :
  let w := stub_world fresh_socket dead_peer in
  connect w = Raise (Exception "Connection Failed") w /\
  is_ConnectionError (Exception "Connection Failed") = false /\
  ~ failure_is_ConnectionError (Env:=Stub).
Proof.
  split; [reflexivity|]. split; [reflexivity|].
  intros Hclaim.
  destruct (Hclaim (stub_world fresh_socket dead_peer))
    as (e & w' & Hrun & Hce & _); [reflexivity..|].
  assert (He : e = Exception "Connection Failed").
  { change (connect (stub_world fresh_socket dead_peer))
      with (Raise (A:=unit) (Exception "Connection Failed")
              (stub_world fresh_socket dead_peer)) in Hrun.
    by inversion Hrun. }
  subst e. discriminate Hce.
Qed.

(** C4 as stated fails: a socket whose transport has closed is no
    longer in the Connected state, yet its flag is still true, the guard
    lets the call through and [set_channel] raises [TypeError], not
    [NotConnectedError]. *)
Lemma C4_closed_socket_gets_TypeError :
  let w := world_of (_listen 1 (connected_world [] 0)) in
  reachable stub_gather w /\
  ws_open 7%nat (env w) = false /\
  ~ live_handle_held w /\
  set_channel "room:1" w
  = Raise (TypeError (MissingPositional "set_channel" ["self"; "topic"])) w /\
  ~ rejects_without_live_handle (Env:=Stub).
Proof.
  assert (Hdead : ~ live_handle_held (world_of (_listen 1 (connected_world [] 0)))).
  { intros (h & _ & Hopen). vm_compute in Hopen. discriminate Hopen. }
  split.
  { eapply reach_step; [|apply step_receive].
    eapply reach_step; [|apply step_connect].
    apply (reach_init stub_gather "ws://localhost:4000/socket" JNull 5 (peer [] 0)). }
  split; [reflexivity|]. split; [exact Hdead|]. split; [reflexivity|].
  intros Hclaim.
  destruct (Hclaim (world_of (_listen 1 (connected_world [] 0))) "room:1" Hdead)
    as (w' & Hrun & _).
  change (set_channel "room:1" (world_of (_listen 1 (connected_world [] 0))))
    with (Raise (A:=value) (TypeError (MissingPositional "set_channel" ["self"; "topic"]))
            (world_of (_listen 1 (connected_world [] 0)))) in Hrun.
  discriminate Hrun.
Qed.

(** C8 as stated fails: once the peer has closed the transport the
    socket still says connected, with a handle that is not open; and it
    still does after [_listen] has seen the closure, printed its line and
    returned. *)
Lemma C8_connected_after_transport_closed :
  let w := connected_world [] 0 in
  let closed := set_env (stub_close (env w)) w in
  let seen := world_of (_listen 1 w) in
  (reachable stub_gather closed /\
   connected (sock closed) = true /\
   ws_connection (sock closed) = Some 7%nat /\
   ws_open 7%nat (env closed) = false /\
   ~ connected_iff_live closed) /\
  (reachable stub_gather seen /\
   out seen = [Print "Connection Closed"] /\
   connected (sock seen) = true /\
   ws_open 7%nat (env seen) = false /\
   ~ connected_iff_live seen).
Proof.
  assert (Hw : reachable stub_gather (connected_world [] 0)).
  { eapply reach_step; [|apply step_connect].
    apply (reach_init stub_gather "ws://localhost:4000/socket" JNull 5 (peer [] 0)). }
  split.
  - split; [eapply reach_step; [exact Hw|apply step_env]|].
    repeat split; try reflexivity.
    intros [Hlive _]. destruct (Hlive eq_refl) as (h & _ & Hopen).
    vm_compute in Hopen. discriminate Hopen.
  - split; [eapply reach_step; [exact Hw|apply step_receive]|].
    repeat split; try reflexivity.
    intros [Hlive _]. destruct (Hlive eq_refl) as (h & _ & Hopen).
    vm_compute in Hopen. discriminate Hopen.
Qed.

(** ** The theorems at concrete inputs *)

(** [set_channel] on the socket that has just connected. *)
Lemma C3_witness :
  connected (sock (connected_world [] 0)) = true /\
  set_channel "room:1" (connected_world [] 0)
  = Raise (TypeError (MissingPositional "set_channel" ["self"; "topic"]))
      (connected_world [] 0).
Proof.
  split; [reflexivity|].
  destruct (C3_guarded_call_raises_TypeError stub_gather (connected_world [] 0))
    as (Hset & _ & _); [reflexivity|].
  apply Hset.
Defined.

(** [set_channel] on a socket that never connected. *)
Lemma C4_witness :
  connected (sock (stub_world fresh_socket (peer [] 0))) = false /\
  set_channel "room:1" (stub_world fresh_socket (peer [] 0))
  = Raise (NotConnectedError "set_channel") (stub_world fresh_socket (peer [] 0)).
Proof.
  split; [reflexivity|].
  apply (C4_not_connected_raises (stub_world fresh_socket (peer [] 0)) "room:1").
  reflexivity.
Defined.

(** A reply frame for a topic with two channels and listeners. *)
Lemma C5_witness :
  ws_recv 7%nat (env (room_world ["reply"; "new_msg"] 0))
  = (Some "reply", peer ["new_msg"] 0) /\
  listen_try (room_world ["reply"; "new_msg"] 0)
  = Ok Continue (set_env (peer ["new_msg"] 0) (room_world ["reply"; "new_msg"] 0)).
Proof.
  split; [reflexivity|].
  apply (C5_reply_is_discarded (room_world ["reply"; "new_msg"] 0) 7%nat "reply"
           (peer ["new_msg"] 0)
           {| topic := "room:1"; event := "phx_reply"; payload := JNull; ref := Some "1" |});
    reflexivity.
Defined.

(** A peer that takes three heartbeats and then closes. *)
Lemma C6_witness :
  stays_open 7%nat (json_dumps data) 5 3 (peer [] 3) = true /\
  exists e',
    _keep_alive 4 (connected_world [] 3)
    = Ok tt (add_out (beats 7%nat (json_dumps data) 5 3
                      ++ [Print "Connection with server closed"])
               (set_env e' (connected_world [] 3))).
Proof.
  split; [reflexivity|].
  apply (C6_heartbeat_until_closed 3 (connected_world [] 3) 7%nat 0%nat); reflexivity.
Defined.

(** [connect()] against a peer that gives an open handle, one that gives
    a handle that is not open, and one that refuses. *)
Lemma C7_witness :
  (connected (sock (connected_world [] 0)) = true /\
   ws_connection (sock (connected_world [] 0)) = Some 7%nat) /\
  connect (stub_world fresh_socket dead_peer)
  = Raise (Exception "Connection Failed") (stub_world fresh_socket dead_peer) /\
  connect (stub_world fresh_socket absent_peer)
  = Raise (OSError "connection refused") (stub_world fresh_socket absent_peer).
Proof.
  split; [|split].
  - unfold connected_world.
    rewrite (proj1 (C7_connect_outcomes (stub_world fresh_socket (peer [] 0)))
               7%nat (peer [] 0)) by reflexivity.
    split; reflexivity.
  - apply (proj1 (proj2 (C7_connect_outcomes (stub_world fresh_socket dead_peer)))
             7%nat dead_peer); reflexivity.
  - apply (proj2 (proj2 (C7_connect_outcomes (stub_world fresh_socket absent_peer)))
             (OSError "connection refused") absent_peer); reflexivity.
Defined.

(** The socket that connected, then the peer closing and [_listen]
    returning. *)
Lemma C8_witness :
  connected (sock (connected_world [] 0)) = true /\
  connected_iff_handle (world_of (_listen 1 (connected_world [] 0))) /\
  connected (sock (world_of (_listen 1 (connected_world [] 0)))) = true /\
  is_Some (ws_connection (sock (world_of (_listen 1 (connected_world [] 0))))).
Proof.
  assert (Hw : reachable stub_gather (connected_world [] 0)).
  { eapply reach_step; [|apply step_connect].
    apply (reach_init stub_gather "ws://localhost:4000/socket" JNull 5 (peer [] 0)). }
  destruct (C8_connected_iff_handle_recorded stub_gather) as (Hiff & Hkept & _).
  split; [reflexivity|]. split.
  - apply Hiff. eapply reach_step; [exact Hw|apply step_receive].
  - apply (Hkept (connected_world [] 0)); [exact Hw| |reflexivity].
    eapply rtc_l; [apply step_receive|apply rtc_refl].
Defined.

(** A frame without its [ref] field, followed by a good frame. *)
Lemma C9_witness :
  decode "no_ref" = inl NotAMessage /\
  _listen 5 (room_world ["no_ref"; "new_msg"] 0)
  = Raise (TypeError BadMessageFields)
      (set_env (peer ["new_msg"] 0) (room_world ["no_ref"; "new_msg"] 0)).
Proof.
  split; [reflexivity|].
  eapply proj1.
  apply (C9_undecodable_frame_aborts (room_world ["no_ref"; "new_msg"] 0) 7%nat
           "no_ref" (peer ["new_msg"] 0) NotAMessage 4%nat); reflexivity.
Defined.

(** A frame for ["room:2"] when only ["room:1"] has channels. *)
Lemma C10_witness :
  channels_under (sock (room_world [] 0)) "room:2" = [] /\
  dispatch {| topic := "room:2"; event := "new_msg"; payload := JNull; ref := None |}
    (room_world [] 0)
  = Ok Continue (room_world [] 0).
Proof.
  split; [reflexivity|].
  eapply proj1.
  apply (C10_unknown_topic_is_noop
           {| topic := "room:2"; event := "new_msg"; payload := JNull; ref := None |}
           (room_world [] 0)).
  reflexivity.
Defined.

(** ** The receive loop, frame after frame *)

Section ReceiveLoop.
Context {Env : Type} `{!Messages} `{!Transport Env} `{!Callbacks}.
Implicit Types (w : World Env).

Lemma listen_try_serves w h raw e' msg :
  ws_connection (sock w) = Some h ->
  ws_recv h (env w) = (Some raw, e') ->
  decode raw = inr msg ->
  (event msg <> reply ->
   channels_ready (heap w) (event msg) (payload msg) (channels_under (sock w) (topic msg))) ->
  listen_try w
  = Ok Continue (add_out (message_calls (heap w) (sock w) msg) (set_env e' w)).
Proof.
  intros Hh Hrecv Hdec Hready. unfold listen_try, bind, recv.
  rewrite Hh, Hrecv, Hdec. unfold message_calls.
  destruct (decide (event msg = reply)) as [Hev|Hev].
  - unfold dispatch. rewrite decide_True by done. unfold ret. by rewrite add_out_nil.
  - rewrite (dispatch_serves msg (set_env e' w)) by auto. reflexivity.
Qed.

Lemma listen_try_closed w h e' :
  ws_connection (sock w) = Some h ->
  ws_recv h (env w) = (None, e') ->
  listen_try w = Ok Break (add_out [Print "Connection Closed"] (set_env e' w)).
Proof.
  intros Hh Hrecv. unfold listen_try, bind, recv. by rewrite Hh, Hrecv.
Qed.

(** When the transport delivers frames that all decode and then closes,
    and the callbacks concerned return, [_listen] serves the messages in
    the order of arrival, each as dispatch serves it, then prints its
    line and returns; socket and channel objects are untouched. *)
Theorem listen_serves_frames_in_order raws : forall msgs w h k,
  ws_connection (sock w) = Some h ->
  delivers h raws (env w) = true ->
  Forall2 (fun raw msg => decode raw = inr msg) raws msgs ->
  Forall (fun msg =>
            event msg <> reply ->
            channels_ready (heap w) (event msg) (payload msg)
              (channels_under (sock w) (topic msg))) msgs ->
  exists e',
    _listen (S (length raws) + k) w
    = Ok tt (add_out (flat_map (message_calls (heap w) (sock w)) msgs
                      ++ [Print "Connection Closed"])
               (set_env e' w)).
Proof.
  induction raws as [|raw raws IH]; intros msgs w h k Hh Hdel Hdec Hready.
  - apply Forall2_nil_inv_l in Hdec as ->. simpl in Hdel.
    destruct (ws_recv h (env w)) as [[r|] e'] eqn:Hrecv; [done|].
    exists e'. simpl. unfold bind. by rewrite (listen_try_closed w h e').
  - apply Forall2_cons_inv_l in Hdec as (msg & msgs' & Hmsg & Hdec & ->).
    apply Forall_cons in Hready as [Hready1 Hready].
    simpl in Hdel.
    destruct (ws_recv h (env w)) as [[r|] e1] eqn:Hrecv; [|done].
    apply andb_prop in Hdel as [Hr Hdel]. apply bool_decide_eq_true in Hr as ->.
    set (w1 := add_out (message_calls (heap w) (sock w) msg) (set_env e1 w)).
    destruct (IH msgs' w1 h k Hh Hdel Hdec Hready) as [e' Hrun].
    exists e'.
    change (_listen (S (length (raw :: raws)) + k) w)
      with (bind listen_try
              (fun f => match f with
                        | Continue => _listen (S (length raws) + k)
                        | Break => ret tt
                        end) w).
    unfold bind. rewrite (listen_try_serves w h raw e1 msg) by done.
    fold w1. rewrite Hrun. subst w1. simpl heap. simpl sock.
    rewrite set_env_add_out, set_env_set_env, add_out_app.
    simpl flat_map. by rewrite app_assoc.
Qed.

End ReceiveLoop.

(** ** Which callbacks dispatch calls, and what a raising one does *)

Section DispatchEdges.
Context {Env : Type} `{!Messages} `{!Transport Env} `{!Callbacks}.
Implicit Types (w : World Env) (ls : list Listener) (cs : list loc).

Lemma call_listeners_sound ev arg ls : forall w,
  exists xs,
    world_of (call_listeners ev arg ls w) = add_out xs w /\
    Forall (fun x => exists cl, cl ∈ ls /\ cl_event cl = ev /\
                               x = Call (cl_callback cl) arg) xs.
Proof.
  induction ls as [|cl ls IH]; intros w.
  - exists []. by rewrite add_out_nil.
  - simpl. destruct (decide (cl_event cl = ev)) as [Hev|Hev].
    + unfold bind. rewrite emit_eq.
      assert (Hhere : exists cl', cl' ∈ cl :: ls /\ cl_event cl' = ev /\
                                   Call (cl_callback cl) arg = Call (cl_callback cl') arg).
      { exists cl. split; [by left|done]. }
      destruct (callback_raises (cl_callback cl) arg) as [e|].
      * exists [Call (cl_callback cl) arg]. split; [done|]. by constructor.
      * destruct (IH (add_out [Call (cl_callback cl) arg] w)) as (xs & Hw & Hxs).
        exists (Call (cl_callback cl) arg :: xs). split.
        { rewrite Hw. by rewrite add_out_app. }
        constructor; [done|].
        eapply Forall_impl; [exact Hxs|].
        intros x (cl' & Hin & Hev' & ->). exists cl'. split; [by right|done].
    + destruct (IH w) as (xs & Hw & Hxs). exists xs. split; [done|].
      eapply Forall_impl; [exact Hxs|].
      intros x (cl' & Hin & Hev' & ->). exists cl'. split; [by right|done].
Qed.

Lemma call_channels_sound ev arg cs : forall w,
  exists xs,
    world_of (call_channels ev arg cs w) = add_out xs w /\
    Forall (fun x => exists c chan cl,
                       c ∈ cs /\ heap w !! c = Some chan /\ cl ∈ listeners chan /\
                       cl_event cl = ev /\ x = Call (cl_callback cl) arg) xs.
Proof.
  induction cs as [|c cs IH]; intros w.
  - exists []. by rewrite add_out_nil.
  - simpl. unfold bind.
    destruct (heap w !! c) as [chan|] eqn:Hc.
    + destruct (call_listeners_sound ev arg (listeners chan) w) as (xs & Hw & Hxs).
      assert (Hxs' : Forall (fun x => exists c' chan' cl,
                         c' ∈ c :: cs /\ heap w !! c' = Some chan' /\ cl ∈ listeners chan' /\
                         cl_event cl = ev /\ x = Call (cl_callback cl) arg) xs).
      { eapply Forall_impl; [exact Hxs|].
        intros x (cl & Hin & Hev & ->). exists c, chan, cl. split; [by left|done]. }
      destruct (call_listeners ev arg (listeners chan) w) as [[] w1|e w1|w1];
        simpl in Hw; subst w1; [|by exists xs..].
      destruct (IH (add_out xs w)) as (ys & Hw & Hys).
      exists (xs ++ ys). split; [by rewrite Hw, add_out_app|].
      apply Forall_app. split; [done|].
      eapply Forall_impl; [exact Hys|].
      intros x (c' & chan' & cl & Hin & Hc' & Hcl & Hev & ->).
      exists c', chan', cl. split; [by right|done].
    + exists []. by rewrite add_out_nil.
Qed.

Lemma dispatch_sound msg w :
  exists xs,
    world_of (dispatch msg w) = add_out xs w /\
    Forall (matching_call (heap w) (sock w) msg) xs.
Proof.
  unfold dispatch. destruct (decide (event msg = reply)).
  - exists []. by rewrite add_out_nil.
  - unfold bind.
    destruct (call_channels_sound (event msg) (payload msg)
                (default [] (channels (sock w) !! topic msg)) w) as (xs & Hw & Hxs).
    exists xs. split.
    + by destruct (call_channels _ _ _ w) as [[] w1|e w1|w1].
    + exact Hxs.
Qed.

(** Whatever the callbacks do, a message only ever leads to calls of
    listeners bound to its event on channels under its topic, each with
    its payload; nothing else about the world changes. *)
Theorem dispatch_calls_only_matching msg w :
  exists xs,
    world_of (dispatch msg w) = add_out xs w /\
    Forall (matching_call (heap w) (sock w) msg) xs.
Proof. apply dispatch_sound. Qed.

Lemma call_listeners_raises ev arg pre cl post e w :
  callbacks_return ev arg pre ->
  cl_event cl = ev ->
  callback_raises (cl_callback cl) arg = Some e ->
  call_listeners ev arg (pre ++ cl :: post) w
  = Raise e (add_out (calls_for ev arg pre ++ [Call (cl_callback cl) arg]) w).
Proof.
  revert w. induction pre as [|p pre IH]; intros w Hret Hev Hraise.
  - simpl. rewrite decide_True by done. unfold bind. rewrite emit_eq, Hraise. done.
  - assert (Hrest : callbacks_return ev arg pre).
    { intros cl' Hin. apply Hret. by right. }
    unfold calls_for. rewrite filter_cons. simpl.
    destruct (decide (cl_event p = ev)) as [Hp|Hp].
    + unfold bind. rewrite emit_eq.
      rewrite (Hret p (list_elem_of_here _ _) Hp).
      rewrite IH by done. rewrite add_out_app. reflexivity.
    + by apply IH.
Qed.

Lemma call_channels_raises ev arg cpre c cpost chan pre cl post e w :
  channels_ready (heap w) ev arg cpre ->
  heap w !! c = Some chan ->
  listeners chan = pre ++ cl :: post ->
  callbacks_return ev arg pre ->
  cl_event cl = ev ->
  callback_raises (cl_callback cl) arg = Some e ->
  call_channels ev arg (cpre ++ c :: cpost) w
  = Raise e (add_out (flat_map (channel_calls (heap w) ev arg) cpre
                      ++ calls_for ev arg pre ++ [Call (cl_callback cl) arg]) w).
Proof.
  revert w. induction cpre as [|c0 cpre IH]; intros w Hready Hc Hls Hret Hev Hraise.
  - simpl. unfold bind. rewrite Hc, Hls.
    by rewrite (call_listeners_raises ev arg pre cl post e w).
  - destruct (Hready c0 (list_elem_of_here _ _)) as (chan0 & Hc0 & Hret0).
    change ((c0 :: cpre) ++ c :: cpost) with (c0 :: (cpre ++ c :: cpost)).
    assert (Hcalls : channel_calls (heap w) ev arg c0 = calls_for ev arg (listeners chan0)).
    { unfold channel_calls. by rewrite Hc0. }
    cbn [call_channels flat_map]. unfold bind at 1. rewrite Hc0.
    rewrite call_listeners_ok by done.
    rewrite (IH (add_out (calls_for ev arg (listeners chan0)) w)); try done.
    + simpl heap. rewrite add_out_app, Hcalls. by rewrite app_assoc.
    + intros c' Hin. apply Hready. by right.
Qed.

End DispatchEdges.

Section RaisingCallback.
Context {Env : Type} `{!Messages} `{!Transport Env} `{!Callbacks}.
Variables (w : World Env) (h : handle) (raw : string) (e' : Env) (msg : Message).
Variables (cpre cpost : list loc) (c : loc) (chan : Channel).
Variables (pre post : list Listener) (cl : Listener).

(** A frame arrives and decodes to a message that is no reply; under
    its topic, after channels whose callbacks return, comes a channel
    where, after listeners whose callbacks return, [cl] is bound to the
    event. *)
Hypothesis Hhandle : ws_connection (sock w) = Some h.
Hypothesis Hrecv : ws_recv h (env w) = (Some raw, e').
Hypothesis Hdecode : decode raw = inr msg.
Hypothesis Hevent : event msg <> reply.
Hypothesis Hunder : channels_under (sock w) (topic msg) = cpre ++ c :: cpost.
Hypothesis Hbefore : channels_ready (heap w) (event msg) (payload msg) cpre.
Hypothesis Hchan : heap w !! c = Some chan.
Hypothesis Hlisteners : listeners chan = pre ++ cl :: post.
Hypothesis Hpre : callbacks_return (event msg) (payload msg) pre.
Hypothesis Hbound : cl_event cl = event msg.

Lemma dispatch_raises e :
  callback_raises (cl_callback cl) (payload msg) = Some e ->
  dispatch msg (set_env e' w)
  = Raise e (add_out (calls_until (heap w) (event msg) (payload msg) cpre pre cl)
               (set_env e' w)).
Proof.
  intros Hraise. unfold dispatch. rewrite decide_False by done.
  unfold bind. simpl sock. fold (channels_under (sock w) (topic msg)). rewrite Hunder.
  by rewrite (call_channels_raises (event msg) (payload msg) cpre c cpost chan pre cl post e).
Qed.

(** A callback that raises anything but [ConnectionClosed] ends
    [_listen] with that exception, whatever turns were left: the
    listeners and channels after it are not called for this message, and
    no later frame is received. *)
Theorem callback_exception_leaves_listen e fuel :
  callback_raises (cl_callback cl) (payload msg) = Some e ->
  e <> ConnectionClosed ->
  _listen (S fuel) w
  = Raise e (add_out (calls_until (heap w) (event msg) (payload msg) cpre pre cl)
               (set_env e' w)).
Proof.
  intros Hraise Hne. simpl. apply bind_raise.
  unfold listen_try, bind, recv. rewrite Hhandle, Hrecv, Hdecode.
  rewrite (dispatch_raises e Hraise). by destruct e.
Qed.

(** A callback that raises [ConnectionClosed] is taken for the transport
    closing: [_listen] prints its line and returns normally, with the
    transport still open behind it. *)
Theorem callback_ConnectionClosed_ends_listen fuel :
  callback_raises (cl_callback cl) (payload msg) = Some ConnectionClosed ->
  _listen (S fuel) w
  = Ok tt (add_out (calls_until (heap w) (event msg) (payload msg) cpre pre cl
                    ++ [Print "Connection Closed"])
             (set_env e' w)).
Proof.
  intros Hraise. simpl. unfold bind at 1.
  unfold listen_try, bind, recv. rewrite Hhandle, Hrecv, Hdecode.
  rewrite (dispatch_raises ConnectionClosed Hraise).
  unfold print. rewrite emit_eq, add_out_app. reflexivity.
Qed.

End RaisingCallback.

(** ** What the coroutines touch *)

Section Effects.
Context {Env : Type} `{!Messages} `{!Transport Env} `{!Callbacks}.
Variables (pre : Socket -> Prop) (P : effect -> Prop).
Hypothesis Hprint : forall line, P (Print line).
Hypothesis Hsent : forall h text, P (Sent h text).
Hypothesis Hsleep : forall secs, P (Sleep secs).

Lemma only_emits_ret {A} (a : A) : only_emits (Env:=Env) pre P (ret a).
Proof.
  intros w _. exists [], (env w). simpl. by rewrite set_env_same, add_out_nil.
Qed.

Lemma only_emits_raise {A} e : only_emits (Env:=Env) (A:=A) pre P (raise e).
Proof.
  intros w _. exists [], (env w). simpl. by rewrite set_env_same, add_out_nil.
Qed.

Lemma only_emits_out_of_fuel {A} :
  only_emits (Env:=Env) (A:=A) pre P (fun w => OutOfFuel w).
Proof.
  intros w _. exists [], (env w). simpl. by rewrite set_env_same, add_out_nil.
Qed.

Lemma only_emits_emit x : P x -> only_emits (Env:=Env) pre P (emit x).
Proof.
  intros Hx w _. exists [x], (env w). rewrite emit_eq. simpl.
  rewrite set_env_same. split; [done|]. by constructor.
Qed.

Lemma only_emits_bind {A B} (m : M Env A) (k : A -> M Env B) :
  only_emits pre P m -> (forall a, only_emits pre P (k a)) -> only_emits pre P (bind m k).
Proof.
  intros Hm Hk w Hw. unfold bind.
  destruct (Hm w Hw) as (xs & e1 & Hw1 & Hxs).
  destruct (m w) as [a w1|e w1|w1]; simpl in Hw1; subst w1; [|by exists xs, e1..].
  destruct (Hk a (add_out xs (set_env e1 w)) Hw) as (ys & e2 & Hw2 & Hys).
  exists (xs ++ ys), e2. split; [|by apply Forall_app].
  rewrite Hw2. by rewrite set_env_add_out, set_env_set_env, add_out_app.
Qed.

Lemma only_emits_catch (body : M Env flow) line :
  only_emits pre P body ->
  only_emits pre P (fun w => match body w with
                             | Raise ConnectionClosed w' => (print line ;;; ret Break) w'
                             | r => r
                             end).
Proof.
  intros Hb w Hw. destruct (Hb w Hw) as (xs & e1 & Hw1 & Hxs).
  destruct (body w) as [a w1|e w1|w1]; simpl in Hw1; subst w1; [by exists xs, e1| |by exists xs, e1].
  destruct e; try by exists xs, e1.
  exists (xs ++ [Print line]), e1. split.
  - unfold bind, print. rewrite emit_eq. simpl. by rewrite add_out_app.
  - apply Forall_app. split; [done|]. by constructor.
Qed.

Lemma only_emits_recv : only_emits (Env:=Env) pre P recv.
Proof.
  intros w _. unfold recv. destruct (ws_connection (sock w)) as [h|].
  - destruct (ws_recv h (env w)) as [r e1]. exists [], e1. simpl.
    by rewrite add_out_nil.
  - exists [], (env w). simpl. by rewrite set_env_same, add_out_nil.
Qed.

Lemma only_emits_send text : only_emits (Env:=Env) pre P (send text).
Proof.
  intros w _. unfold send. destruct (ws_connection (sock w)) as [h|].
  - destruct (ws_send h text (env w)) as [[[]|] e1].
    + exists [Sent h text], e1. rewrite emit_eq. split; [done|]. by constructor.
    + exists [], e1. simpl. by rewrite add_out_nil.
  - exists [], (env w). simpl. by rewrite set_env_same, add_out_nil.
Qed.

Lemma only_emits_sleep secs : only_emits (Env:=Env) pre P (sleep secs).
Proof.
  intros w _. exists [Sleep secs], (asyncio_sleep secs (env w)).
  unfold sleep. rewrite emit_eq. split; [done|]. by constructor.
Qed.

Lemma only_emits_keep_alive_try : only_emits (Env:=Env) pre P keep_alive_try.
Proof.
  intros w Hw. unfold keep_alive_try.
  apply (only_emits_catch
           (send (json_dumps data) ;;; sleep (hb_interval (sock w)) ;;; ret Continue)
           "Connection with server closed"); [|done].
  apply only_emits_bind; [apply only_emits_send|]. intros _.
  apply only_emits_bind; [apply only_emits_sleep|]. intros _.
  apply only_emits_ret.
Qed.

Lemma only_emits__keep_alive fuel : only_emits (Env:=Env) pre P (_keep_alive fuel).
Proof.
  induction fuel as [|fuel IH]; simpl; [apply only_emits_out_of_fuel|].
  apply only_emits_bind; [apply only_emits_keep_alive_try|].
  intros []; [done|apply only_emits_ret].
Qed.

(** The loop of [_listen], given what dispatch is known to emit. *)
Lemma only_emits__listen fuel :
  (forall msg, only_emits (Env:=Env) pre P (dispatch msg)) ->
  only_emits (Env:=Env) pre P (_listen fuel).
Proof.
  intros Hdispatch.
  assert (Htry : only_emits (Env:=Env) pre P listen_try).
  { intros w Hw. unfold listen_try.
    apply (only_emits_catch
             (bind recv (fun r => match r with
                                  | None => raise ConnectionClosed
                                  | Some raw =>
                                      match decode raw with
                                      | inl d => raise (decode_exn d)
                                      | inr msg => dispatch msg
                                      end
                                  end)) "Connection Closed"); [|done].
    apply only_emits_bind; [apply only_emits_recv|].
    intros [raw|]; [|apply only_emits_raise].
    destruct (decode raw); [apply only_emits_raise|apply Hdispatch]. }
  induction fuel as [|fuel IH]; simpl; [apply only_emits_out_of_fuel|].
  apply only_emits_bind; [exact Htry|].
  intros []; [done|apply only_emits_ret].
Qed.

End Effects.

Section Footprint.
Context {Env : Type} `{!Messages} `{!Transport Env} `{!Callbacks}.
Implicit Types (w : World Env).

Lemma dispatch_emits_calls msg :
  only_emits (Env:=Env) (fun _ => True) (fun _ => True) (dispatch msg).
Proof.
  intros w _. destruct (dispatch_sound msg w) as (xs & Hw & _).
  exists xs, (env w). rewrite set_env_same. split; [done|].
  by apply Forall_forall.
Qed.

Lemma dispatch_without_channels P msg :
  only_emits (Env:=Env) (fun s => channels s = ∅) P (dispatch msg).
Proof.
  intros w Hw. destruct (dispatch_sound msg w) as (xs & Hrun & Hxs).
  exists xs, (env w). rewrite set_env_same. split; [done|].
  eapply Forall_impl; [exact Hxs|].
  intros x (c & _ & _ & Hin & _). unfold channels_under in Hin.
  rewrite Hw, lookup_empty in Hin. by apply elem_of_nil in Hin.
Qed.

(** However they end and whatever the transport does, the two
    coroutines leave the socket's attributes and the channel objects as
    they were: they only move the transport and add to what is observed,
    and [_keep_alive] never adds the call of a callback. *)
Theorem coroutines_touch_only_transport_and_output fuel w :
  (exists xs e', world_of (_listen fuel w) = add_out xs (set_env e' w)) /\
  (exists xs e', world_of (_keep_alive fuel w) = add_out xs (set_env e' w) /\
                 Forall (fun x => is_call x = false) xs).
Proof.
  split.
  - destruct (only_emits__listen (fun _ => True) (fun _ => True)
                (fun _ => I) fuel dispatch_emits_calls w I) as (xs & e' & Hw & _).
    by exists xs, e'.
  - by apply (only_emits__keep_alive (fun _ => True) (fun x => is_call x = false)).
Qed.

(** On a socket without channels, [_listen] invokes no callback,
    whatever frames arrive. *)
Lemma listen_without_channels fuel w :
  channels (sock w) = ∅ ->
  exists xs e', world_of (_listen fuel w) = add_out xs (set_env e' w) /\
                Forall (fun x => is_call x = false) xs.
Proof.
  apply (only_emits__listen (fun s => channels s = ∅) (fun x => is_call x = false));
    [done|]. apply dispatch_without_channels.
Qed.

End Footprint.

(** ** The heartbeat, whatever the transport does *)

Section HeartbeatShape.
Context {Env : Type} `{!Messages} `{!Transport Env} `{!Callbacks}.
Implicit Types (w : World Env).

Lemma beats_S h text secs n :
  beats h text secs (S n) = [Sent h text; Sleep secs] ++ beats h text secs n.
Proof. reflexivity. Qed.

(** While the transport takes the frames, [_keep_alive] stays in its
    loop: [n] sends that are accepted take [n] turns, each of them the
    heartbeat frame and then the sleep of [hb_interval], and the loop
    goes on from the state after them; with those [n] turns alone it has
    neither returned nor raised. *)
Theorem heartbeat_goes_on_while_sent n : forall w h e1 k,
  ws_connection (sock w) = Some h ->
  after_sends h (json_dumps data) (hb_interval (sock w)) n (env w) = Some e1 ->
  _keep_alive (n + k) w
  = _keep_alive k (add_out (beats h (json_dumps data) (hb_interval (sock w)) n)
                     (set_env e1 w)) /\
  _keep_alive n w
  = OutOfFuel (add_out (beats h (json_dumps data) (hb_interval (sock w)) n)
                 (set_env e1 w)).
Proof.
  assert (Hgo : forall n w h e1 k,
    ws_connection (sock w) = Some h ->
    after_sends h (json_dumps data) (hb_interval (sock w)) n (env w) = Some e1 ->
    _keep_alive (n + k) w
    = _keep_alive k (add_out (beats h (json_dumps data) (hb_interval (sock w)) n)
                       (set_env e1 w))).
  { clear n. induction n as [|n IH]; intros w h e1 k Hh Hafter.
    - simpl in Hafter. injection Hafter as <-.
      simpl. by rewrite add_out_nil, set_env_same.
    - simpl in Hafter.
      destruct (ws_send h (json_dumps data) (env w)) as [[[]|] e0] eqn:Hsend; [|done].
      set (secs := hb_interval (sock w)) in *.
      set (w1 := add_out [Sent h (json_dumps data); Sleep secs]
                   (set_env (asyncio_sleep secs e0) w)).
      change (_keep_alive (S n + k) w)
        with (bind keep_alive_try
                (fun f => match f with
                          | Continue => _keep_alive (n + k)
                          | Break => ret tt
                          end) w).
      unfold bind. rewrite (keep_alive_try_sent w h e0) by done.
      fold secs. fold w1. rewrite (IH w1 h e1 k Hh Hafter).
      subst w1. simpl sock. fold secs.
      by rewrite set_env_add_out, set_env_set_env, add_out_app, beats_S. }
  intros w h e1 k Hh Hafter. split; [by apply Hgo|].
  rewrite <- (Nat.add_0_r n) at 1. by rewrite (Hgo n w h e1 0%nat Hh Hafter).
Qed.

(** Run on a socket that holds no handle, either coroutine raises
    [AttributeError] at its first step, for the attribute it asks of
    [None]; the [except] clause does not catch it and nothing is printed
    or sent. *)
Theorem coroutines_need_a_handle w fuel :
  ws_connection (sock w) = None ->
  _listen (S fuel) w = Raise (AttributeError "recv") w /\
  _keep_alive (S fuel) w = Raise (AttributeError "send") w.
Proof.
  intros Hnone. split; simpl; apply bind_raise.
  - unfold listen_try, bind, recv. by rewrite Hnone.
  - unfold keep_alive_try, bind, send. by rewrite Hnone.
Qed.

End HeartbeatShape.

(** ** The decorator and the guarded methods *)

Section Decorator.
Context {Env : Type} `{!Messages} `{!Transport Env} `{!Callbacks}.
Variable asyncio_gather : M Env unit -> M Env unit -> M Env unit.
Implicit Types (w : World Env).

(** The wrapper looks at its first argument only.  On a disconnected
    socket it raises [NotConnectedError] with the name of the function;
    on a connected one, a function whose parameters are all required
    positional ones, and that has at least one, gets none of them, so
    that the call raises [TypeError] for all of them and the body never
    runs; and the arguments after the first make no difference to the
    outcome. *)
Theorem wrapper_ignores_its_arguments func rest w :
  (connected (sock w) = false ->
   ensure_connection func (VSocket :: rest) w
   = Raise (NotConnectedError (fn_name func)) w) /\
  (connected (sock w) = true -> fn_params func <> [] ->
   ensure_connection func (VSocket :: rest) w
   = Raise (TypeError (MissingPositional (fn_name func) (fn_params func))) w) /\
  (forall rest',
     ensure_connection func (VSocket :: rest) w
     = ensure_connection func (VSocket :: rest') w).
Proof.
  split; [apply wrapper_not_connected|]. split; [|done].
  intros Hc Hparams. rewrite wrapper_connected by done.
  unfold bind, py_call. simpl length.
  destruct (fn_params func) as [|p ps] eqn:Hp; [done|]. simpl length.
  rewrite decide_False by (simpl; lia). rewrite decide_True by (simpl; lia). done.
Qed.

(** Whatever the state of the socket, [set_channel(topic)] and
    [listen()] raise and change nothing: [NotConnectedError] when
    [connected] is false, [TypeError] when it is true.  No channel is
    ever registered by [set_channel], and [listen] never reaches the
    event loop, whatever the scheduler and however long it would run. *)
Theorem guarded_methods_always_raise w :
  (forall t,
     set_channel t w
     = Raise (if connected (sock w)
              then TypeError (MissingPositional "set_channel" ["self"; "topic"])
              else NotConnectedError "set_channel") w) /\
  (forall fuel,
     listen asyncio_gather fuel w
     = Raise (if connected (sock w)
              then TypeError (MissingPositional "listen" ["self"])
              else NotConnectedError "listen") w).
Proof.
  split; intros x; [unfold set_channel|unfold listen]; unfold ensure_connection;
    by destruct (connected (sock w)).
Qed.

End Decorator.

(** ** What connecting and registering leave alone *)

Section Frames.
Context {Env : Type} `{!Messages} `{!Transport Env} `{!Callbacks}.
Implicit Types (w : World Env).

(** [connect()], however it ends, changes nothing of the socket but
    [connected] and [ws_connection]: url, params, interval, the
    [kept_alive] flag and the channel mapping are kept, and so are the
    channel objects and what was observed.  It never disconnects: a
    socket that was connected stays so, and a recorded handle is at most
    replaced by a new one, also when the attempt fails. *)
Theorem connect_touches_only_the_connection w :
  url (sock (world_of (connect w))) = url (sock w) /\
  params (sock (world_of (connect w))) = params (sock w) /\
  hb_interval (sock (world_of (connect w))) = hb_interval (sock w) /\
  kept_alive (sock (world_of (connect w))) = kept_alive (sock w) /\
  channels (sock (world_of (connect w))) = channels (sock w) /\
  heap (world_of (connect w)) = heap w /\
  out (world_of (connect w)) = out w /\
  (connected (sock w) = true -> connected (sock (world_of (connect w))) = true) /\
  (is_Some (ws_connection (sock w)) ->
   is_Some (ws_connection (sock (world_of (connect w))))).
Proof.
  unfold connect, bind, _connect.
  destruct (ws_connect (url (sock w)) (env w)) as [[e|h] e1]; simpl; [done|].
  destruct (ws_open h e1); simpl; [|done].
  repeat split; try done; intros _; by eexists.
Qed.

Lemma set_channel_body_frame t w t' :
  t' <> t ->
  channels (sock (world_of (set_channel_body t w))) !! t' = channels (sock w) !! t'.
Proof. intros Hne. simpl. by rewrite lookup_insert_ne. Qed.

(** Registration by the body of [set_channel], any number of times
    under one topic, leaves the list of every other topic as it was, and
    leaves [connected], the handle, the transport and what was observed
    as they were. *)
Theorem register_all_frame t n : forall w,
  (forall t', t' <> t ->
     channels (sock (world_of (register_all t n w))) !! t' = channels (sock w) !! t') /\
  connected (sock (world_of (register_all t n w))) = connected (sock w) /\
  ws_connection (sock (world_of (register_all t n w))) = ws_connection (sock w) /\
  env (world_of (register_all t n w)) = env w /\
  out (world_of (register_all t n w)) = out w.
Proof.
  induction n as [|n IH]; intros w; [done|].
  destruct (set_channel_body_spec t w) as (c & Hbody & _).
  set (w1 := set_sock (set_channels (<[t := channels_under (sock w) t ++ [c]]>
                                       (channels (sock w))) (sock w))
               (set_heap (<[c := {| chan_topic := t; chan_params := params (sock w);
                                    listeners := [] |}]> (heap w)) w)) in *.
  assert (Hrun : world_of (register_all t (S n) w) = world_of (register_all t n w1)).
  { simpl. unfold bind. rewrite py_call_set_channel_def, Hbody. fold w1.
    by destruct (register_all t n w1). }
  rewrite Hrun. destruct (IH w1) as (Hother & Hconn & Hh & Henv & Hout).
  split; [|by rewrite Hconn, Hh, Henv, Hout].
  intros t' Hne. rewrite Hother by done. subst w1. simpl. by rewrite lookup_insert_ne.
Qed.

End Frames.

(** ** Every socket the operations can reach *)

Section Reachable.
Context {Env : Type} `{!Messages} `{!Transport Env} `{!Callbacks}.
Variable asyncio_gather : M Env unit -> M Env unit -> M Env unit.
Implicit Types (w : World Env).

(** A socket built with a url, params and an interval keeps them in
    every state it reaches from there: its attributes are those of
    [Socket(url, params, hb_interval)], except that [connected] may have
    become true together with a handle in [ws_connection]; [kept_alive]
    is never set and the channel mapping stays empty. *)
Theorem socket_stays_as_built u p hb e w :
  rtc (step asyncio_gather) (init_world u p hb e) w ->
  sock w = __init__ u p hb \/
  exists h, sock w = set_connected true (set_ws_connection (Some h) (__init__ u p hb)).
Proof.
  revert w.
  apply (rtc_ind_r (fun w =>
           sock w = __init__ u p hb \/
           exists h, sock w = set_connected true
                                (set_ws_connection (Some h) (__init__ u p hb))));
    [by left|].
  intros w w' _ Hstep IH. destruct Hstep.
  - unfold connect, bind, _connect.
    destruct (ws_connect (url (sock w)) (env w)) as [[e0|h] e1]; [done|].
    destruct (ws_open h e1); [|done].
    right. exists h. simpl. by destruct IH as [->|[h0 ->]].
  - by rewrite set_channel_changes_nothing.
  - by rewrite listen_changes_nothing.
  - by rewrite (keeps_sock_register c ev cb w).
  - by rewrite (keeps_sock__listen fuel w).
  - by rewrite (keeps_sock__keep_alive fuel w).
  - exact IH.
Qed.

Lemma connect_out_heap w :
  channels (sock (world_of (connect w))) = channels (sock w) /\
  heap (world_of (connect w)) = heap w /\ out (world_of (connect w)) = out w.
Proof.
  unfold connect, bind, _connect.
  destruct (ws_connect (url (sock w)) (env w)) as [[e|h] e1]; simpl; [done|].
  by destruct (ws_open h e1).
Qed.

(** In every state a socket can reach, no channel is registered and no
    channel object exists, and no callback has ever been invoked:
    nothing observed is a call. *)
Theorem reachable_never_calls w :
  reachable asyncio_gather w ->
  channels (sock w) = ∅ /\ heap w = ∅ /\ Forall (fun x => is_call x = false) (out w).
Proof.
  induction 1 as [u p hb e|w w' _ IH Hstep]; [by repeat split|].
  destruct IH as (Hch & Hheap & Hout). destruct Hstep.
  - destruct (connect_out_heap w) as (-> & -> & ->). done.
  - by rewrite set_channel_changes_nothing.
  - by rewrite listen_changes_nothing.
  - unfold register. by rewrite Hheap, lookup_empty.
  - destruct (listen_without_channels fuel w Hch) as (xs & e' & -> & Hxs).
    simpl. repeat split; try done. by apply Forall_app.
  - destruct (only_emits__keep_alive (fun _ => True) (fun x => is_call x = false)
                (fun _ => eq_refl) (fun _ _ => eq_refl) (fun _ => eq_refl) fuel w I)
      as (xs & e' & -> & Hxs).
    simpl. repeat split; try done. by apply Forall_app.
  - done.
Qed.

End Reachable.

(** ** A bad frame after good ones *)

Section BadFrameLater.
Context {Env : Type} `{!Messages} `{!Transport Env} `{!Callbacks}.
Implicit Types (w : World Env).

(** Frames that decode, served by callbacks that return, take one turn
    of the loop each. *)
Lemma listen_runs_through_frames raws : forall msgs w h e1 k,
  ws_connection (sock w) = Some h ->
  after_frames h raws (env w) = Some e1 ->
  Forall2 (fun raw msg => decode raw = inr msg) raws msgs ->
  Forall (fun msg =>
            event msg <> reply ->
            channels_ready (heap w) (event msg) (payload msg)
              (channels_under (sock w) (topic msg))) msgs ->
  _listen (length raws + k) w
  = _listen k (add_out (flat_map (message_calls (heap w) (sock w)) msgs) (set_env e1 w)).
Proof.
  induction raws as [|raw raws IH]; intros msgs w h e1 k Hh Hafter Hdec Hready.
  - apply Forall2_nil_inv_l in Hdec as ->. simpl in Hafter. injection Hafter as <-.
    simpl. by rewrite add_out_nil, set_env_same.
  - apply Forall2_cons_inv_l in Hdec as (msg & msgs' & Hmsg & Hdec & ->).
    apply Forall_cons in Hready as [Hready1 Hready].
    simpl in Hafter.
    destruct (ws_recv h (env w)) as [[r|] e0] eqn:Hrecv; [|done].
    destruct (decide (r = raw)) as [->|]; [|done].
    set (w1 := add_out (message_calls (heap w) (sock w) msg) (set_env e0 w)).
    change (_listen (length (raw :: raws) + k) w)
      with (bind listen_try
              (fun f => match f with
                        | Continue => _listen (length raws + k)
                        | Break => ret tt
                        end) w).
    unfold bind. rewrite (listen_try_serves w h raw e0 msg) by done. fold w1.
    rewrite (IH msgs' w1 h e1 k Hh Hafter Hdec Hready).
    subst w1. simpl heap. simpl sock.
    by rewrite set_env_add_out, set_env_set_env, add_out_app.
Qed.

(** A frame that does not decode, arriving after frames that did and
    were served: [_listen] raises the decoding error then; what the
    earlier frames led to has been invoked, in order, and the frames
    after the bad one are never received. *)
Theorem undecodable_frame_after_others raws msgs w h e1 bad e2 d k :
  ws_connection (sock w) = Some h ->
  after_frames h raws (env w) = Some e1 ->
  Forall2 (fun raw msg => decode raw = inr msg) raws msgs ->
  Forall (fun msg =>
            event msg <> reply ->
            channels_ready (heap w) (event msg) (payload msg)
              (channels_under (sock w) (topic msg))) msgs ->
  ws_recv h e1 = (Some bad, e2) ->
  decode bad = inl d ->
  _listen (length raws + S k) w
  = Raise (decode_exn d)
      (add_out (flat_map (message_calls (heap w) (sock w)) msgs) (set_env e2 w)).
Proof.
  intros Hh Hafter Hdec Hready Hrecv Hbad.
  rewrite (listen_runs_through_frames raws msgs w h e1 (S k)) by done.
  simpl. apply bind_raise.
  by rewrite (listen_try_undecodable _ h bad e2 d).
Qed.

End BadFrameLater.

(** ** The further theorems at concrete inputs *)

(** Decides membership in a concrete list, case by case. *)
Ltac each_member H :=
  repeat (apply elem_of_cons in H as [->|H]); [..|by apply elem_of_nil in H].

(** The channels of a concrete room are objects whose callbacks return,
    or the message is a reply. *)
Ltac room_ready :=
  let Hne := fresh in
  intros Hne;
  first
    [ exfalso; apply Hne; reflexivity
    | let c := fresh "c" in
      let Hc := fresh "Hc" in
      intros c Hc; vm_compute in Hc; each_member Hc;
      (eexists; split; [vm_compute; reflexivity|]);
      (let cl := fresh "cl" in
       let Hcl := fresh "Hcl" in
       intros cl Hcl _; simpl in Hcl; each_member Hcl; reflexivity) ].

(** Three frames for the room with two channels, then the peer closes. *)
Lemma listen_serves_frames_in_order_witness :
  delivers 7%nat ["typing"; "reply"; "new_msg"]
    (env (room_world ["typing"; "reply"; "new_msg"] 0)) = true /\
  exists e',
    _listen 4 (room_world ["typing"; "reply"; "new_msg"] 0)
    = Ok tt (add_out ([Call 2%nat JNull; Call 1%nat (JObj [("body", JStr "hi")])]
                      ++ [Print "Connection Closed"])
               (set_env e' (room_world ["typing"; "reply"; "new_msg"] 0))).
Proof.
  split; [reflexivity|].
  destruct (listen_serves_frames_in_order ["typing"; "reply"; "new_msg"]
              [typing_msg; reply_msg; new_msg_msg]
              (room_world ["typing"; "reply"; "new_msg"] 0) 7%nat 0%nat)
    as [e' Hrun].
  - reflexivity.
  - reflexivity.
  - repeat constructor.
  - constructor; [room_ready|]. constructor; [room_ready|].
    constructor; [room_ready|]. constructor.
  - exists e'. vm_compute in Hrun |- *. exact Hrun.
Defined.

(** A ["typing"] frame in the crowded room: callback 13 raises on the
    first channel, and callback 2 on the second is never called. *)
Lemma callback_exception_leaves_listen_witness :
  callback_raises 13%nat JNull = Some (Exception "boom") /\
  _listen 5 (crowded_room ["typing"; "new_msg"])
  = Raise (Exception "boom")
      (add_out [Call 13%nat JNull]
         (set_env (peer ["new_msg"] 0) (crowded_room ["typing"; "new_msg"]))).
Proof.
  split; [reflexivity|].
  apply (callback_exception_leaves_listen
           (crowded_room ["typing"; "new_msg"]) 7%nat "typing" (peer ["new_msg"] 0)
           typing_msg [] [1%nat] 0%nat
           {| chan_topic := "room:1"; chan_params := JNull;
              listeners := [{| cl_event := "new_msg"; cl_callback := 1%nat |};
                            {| cl_event := "typing"; cl_callback := 13%nat |}] |}
           [{| cl_event := "new_msg"; cl_callback := 1%nat |}] []
           {| cl_event := "typing"; cl_callback := 13%nat |}).
  - reflexivity.
  - reflexivity.
  - reflexivity.
  - discriminate.
  - reflexivity.
  - intros c Hc. by apply elem_of_nil in Hc.
  - reflexivity.
  - reflexivity.
  - intros cl Hcl _. each_member Hcl. reflexivity.
  - reflexivity.
  - reflexivity.
  - discriminate.
Defined.

(** The same frame when the callback raises [ConnectionClosed]: the
    loop ends as if the peer had closed, with a frame still to come. *)
Lemma callback_ConnectionClosed_ends_listen_witness :
  @callback_raises closing_callbacks 14%nat JNull = Some ConnectionClosed /\
  @_listen Stub stub_messages stub_transport closing_callbacks 5
    (closing_room ["typing"; "new_msg"])
  = Ok tt (add_out ([Call 14%nat JNull] ++ [Print "Connection Closed"])
             (set_env (peer ["new_msg"] 0) (closing_room ["typing"; "new_msg"]))).
Proof.
  split; [reflexivity|].
  apply (@callback_ConnectionClosed_ends_listen Stub stub_messages stub_transport
           closing_callbacks
           (closing_room ["typing"; "new_msg"]) 7%nat "typing" (peer ["new_msg"] 0)
           typing_msg [] [1%nat] 0%nat
           {| chan_topic := "room:1"; chan_params := JNull;
              listeners := [{| cl_event := "new_msg"; cl_callback := 1%nat |};
                            {| cl_event := "typing"; cl_callback := 14%nat |}] |}
           [{| cl_event := "new_msg"; cl_callback := 1%nat |}] []
           {| cl_event := "typing"; cl_callback := 14%nat |}).
  - reflexivity.
  - reflexivity.
  - reflexivity.
  - discriminate.
  - reflexivity.
  - intros c Hc. by apply elem_of_nil in Hc.
  - reflexivity.
  - reflexivity.
  - intros cl Hcl _. each_member Hcl. reflexivity.
  - reflexivity.
  - reflexivity.
Defined.

(** Two heartbeats against a peer that would take three. *)
Lemma heartbeat_goes_on_while_sent_witness :
  after_sends 7%nat (json_dumps data) 5 2 (env (connected_world [] 3))
  = Some (peer [] 1) /\
  _keep_alive 2 (connected_world [] 3)
  = OutOfFuel (add_out (beats 7%nat (json_dumps data) 5 2)
                 (set_env (peer [] 1) (connected_world [] 3))).
Proof.
  split; [reflexivity|].
  eapply proj2.
  apply (heartbeat_goes_on_while_sent 2 (connected_world [] 3) 7%nat (peer [] 1) 0%nat);
    reflexivity.
Defined.

(** The coroutines on a socket that never connected. *)
Lemma coroutines_need_a_handle_witness :
  ws_connection (sock (stub_world fresh_socket (peer ["new_msg"] 1))) = None /\
  _listen 3 (stub_world fresh_socket (peer ["new_msg"] 1))
  = Raise (AttributeError "recv") (stub_world fresh_socket (peer ["new_msg"] 1)) /\
  _keep_alive 3 (stub_world fresh_socket (peer ["new_msg"] 1))
  = Raise (AttributeError "send") (stub_world fresh_socket (peer ["new_msg"] 1)).
Proof.
  split; [reflexivity|].
  apply (coroutines_need_a_handle (stub_world fresh_socket (peer ["new_msg"] 1)) 2%nat).
  reflexivity.
Defined.

(** A good frame, a frame without its [ref], a good frame. *)
Lemma undecodable_frame_after_others_witness :
  after_frames 7%nat ["typing"] (env (room_world ["typing"; "no_ref"; "new_msg"] 0))
  = Some (peer ["no_ref"; "new_msg"] 0) /\
  _listen 2 (room_world ["typing"; "no_ref"; "new_msg"] 0)
  = Raise (TypeError BadMessageFields)
      (add_out [Call 2%nat JNull]
         (set_env (peer ["new_msg"] 0) (room_world ["typing"; "no_ref"; "new_msg"] 0))).
Proof.
  split; [reflexivity|].
  pose proof (undecodable_frame_after_others ["typing"] [typing_msg]
                (room_world ["typing"; "no_ref"; "new_msg"] 0) 7%nat
                (peer ["no_ref"; "new_msg"] 0) "no_ref" (peer ["new_msg"] 0)
                NotAMessage 0%nat) as Hrun.
  vm_compute in Hrun |- *. apply Hrun; try reflexivity.
  - repeat constructor.
  - constructor; [|constructor]. room_ready.
Defined.

(** The wrapper around [set_channel] on the socket that has connected. *)
Lemma wrapper_ignores_its_arguments_witness :
  connected (sock (connected_world [] 0)) = true /\
  ensure_connection (Env:=Stub) set_channel_def [VSocket; VStr "room:1"]
    (connected_world [] 0)
  = Raise (TypeError (MissingPositional "set_channel" ["self"; "topic"]))
      (connected_world [] 0).
Proof.
  split; [reflexivity|].
  apply (proj1 (proj2 (wrapper_ignores_its_arguments set_channel_def [VStr "room:1"]
                         (connected_world [] 0))));
    [reflexivity|discriminate].
Defined.

(** A second [connect()] that fails, on a socket that had connected. *)
Lemma connect_touches_only_the_connection_witness :
  connect (set_env dead_peer (connected_world [] 0))
  = Raise (Exception "Connection Failed") (set_env dead_peer (connected_world [] 0)) /\
  connected (sock (world_of (connect (set_env dead_peer (connected_world [] 0))))) = true.
Proof.
  split; [reflexivity|].
  apply (connect_touches_only_the_connection (set_env dead_peer (connected_world [] 0))).
  reflexivity.
Defined.

(** The socket built for the stub, after it connected, the peer closed
    and [_listen] returned. *)
Lemma socket_stays_as_built_witness :
  sock (world_of (_listen 1 (connected_world [] 0)))
  = __init__ "ws://localhost:4000/socket" JNull 5 \/
  exists h, sock (world_of (_listen 1 (connected_world [] 0)))
            = set_connected true
                (set_ws_connection (Some h) (__init__ "ws://localhost:4000/socket" JNull 5)).
Proof.
  apply (socket_stays_as_built stub_gather "ws://localhost:4000/socket" JNull 5 (peer [] 0)).
  eapply rtc_l; [apply step_connect|].
  eapply rtc_l; [apply step_receive|].
  apply rtc_refl.
Defined.

(** The same socket after heartbeats, with frames having arrived. *)
Lemma reachable_never_calls_witness :
  Forall (fun x => is_call x = false)
    (out (world_of (_listen 3 (world_of (_keep_alive 2 (connected_world ["new_msg"] 1)))))).
Proof.
  apply (reachable_never_calls stub_gather).
  eapply reach_step; [|apply step_receive].
  eapply reach_step; [|apply step_heartbeat].
  eapply reach_step; [|apply step_connect].
  apply (reach_init stub_gather "ws://localhost:4000/socket" JNull 5 (peer ["new_msg"] 1)).
Defined.
